(** * exec-helpers: the local-process executor and its command masker

    A shallow embedding of [exec_helpers/api.py] and
    [exec_helpers/subprocess_runner.py].

    - Python values are modelled as the code has them: [str] as a string of
      8-bit code points, [bytes] as a list of bytes, [Optional] as [option],
      integers as [Z].
    - Calls into the operating system and into the Python library
      ([subprocess.Popen], [re.finditer], the logger, the futures of the two
      output readers) are recorded, in order, in a trace of events; what
      each call answers is read from an [environment], a script of replies.
    - Exceptions are values of [exn]; a computation returns, raises or
      blocks forever. *)

From stdpp Require Import base option list gmap strings.
From Stdlib Require Import ZArith Lia.
From Stdlib.Strings Require Import Ascii String Byte.

Local Open Scope string_scope.
Local Open Scope list_scope.
Local Open Scope Z_scope.

(** ** Python built-ins used by the two modules *)

Module Py.

Definition str := string.
Definition bytes := list byte.

Definition len (s : str) : Z := Z.of_nat (String.length s).

(** Truth value of an [Optional[str]]: [None] and the empty string are
    false. *)
Definition truthy (o : option str) : bool :=
  match o with
  | None => false
  | Some s => negb (String.eqb s "")
  end.

(** One bound of a slice, as [slice.indices] adjusts it for a sequence of
    length [n]: a negative bound counts from the end, and the result is
    clamped to [0 .. n]. *)
Definition slice_bound (n i : Z) : Z :=
  if i <? 0 then Z.max (i + n) 0 else Z.min i n.

(** [text[start: stop]] *)
Definition slice (text : str) (start stop : Z) : str :=
  let a := slice_bound (len text) start in
  let b := slice_bound (len text) stop in
  if a <? b then String.substring (Z.to_nat a) (Z.to_nat (b - a)) text else "".

(** [l[i]] for a list: a negative index counts from the end; out of range
    there is no value (Python raises IndexError). *)
Definition index {A} (l : list A) (i : Z) : option A :=
  let n := Z.of_nat (List.length l) in
  let j := if i <? 0 then i + n else i in
  if (0 <=? j) && (j <? n) then l !! Z.to_nat j else None.

(** [range(start, stop, step)] for a positive step. *)
Fixpoint range_from (fuel : nat) (start stop step : Z) : list Z :=
  match fuel with
  | O => []
  | S fuel' =>
      if start <? stop
      then start :: range_from fuel' (start + step) stop step
      else []
  end.

Definition range (start stop step : Z) : list Z :=
  range_from (Z.to_nat (stop - start)) start stop step.

(** The code points below 256 that [str.isspace] accepts; [str.rstrip()]
    removes them from the end. *)
Definition isspace (c : ascii) : bool :=
  let n := Z.of_nat (nat_of_ascii c) in
  ((9 <=? n) && (n <=? 13)) || ((28 <=? n) && (n <=? 32))
  || (n =? 133) || (n =? 160).

Fixpoint rstrip (s : str) : str :=
  match s with
  | EmptyString => EmptyString
  | String c rest =>
      match rstrip rest with
      | EmptyString => if isspace c then EmptyString else String c EmptyString
      | rest' => String c rest'
      end
  end.

(** [s.encode(encoding='utf-8')] on code points below 256: one byte below
    128, two bytes from 128 on. *)
Definition utf8_char (c : ascii) : bytes :=
  let n := N_of_ascii c in
  if (n <? 128)%N then [byte_of_ascii c]
  else
    match Byte.of_N (N.lor 192 (N.shiftr n 6)),
          Byte.of_N (N.lor 128 (N.land n 63)) with
    | Some hi, Some lo => [hi; lo]
    | _, _ => []
    end.

Fixpoint encode_utf8 (s : str) : bytes :=
  match s with
  | EmptyString => []
  | String c rest => utf8_char c ++ encode_utf8 rest
  end.

End Py.

Import Py.

(** ** exec_result.ExecResult *)

Module exec_result.

(** Modelled from the spec: the module [exec_helpers/exec_result.py] is
    not among the sources. The result container holds the displayed
    command, the exit code (absent until determined) and the raw bytes of
    the two streams; a chunk is appended at the end of its stream; the
    exit code is written once, writing the same value again changes
    nothing, writing another value is a logic error (no result). *)
Record ExecResult := mkExecResult {
  cmd : str;
  exit_code : option Z;
  stdout : bytes;
  stderr : bytes;
}.

Definition new (cmd_for_log : str) : ExecResult :=
  {| cmd := cmd_for_log; exit_code := None; stdout := []; stderr := [] |}.

Definition append_stdout (chunk : bytes) (r : ExecResult) : ExecResult :=
  {| cmd := cmd r; exit_code := exit_code r;
     stdout := stdout r ++ chunk; stderr := stderr r |}.

Definition append_stderr (chunk : bytes) (r : ExecResult) : ExecResult :=
  {| cmd := cmd r; exit_code := exit_code r;
     stdout := stdout r; stderr := stderr r ++ chunk |}.

Definition set_exit_code (new_val : Z) (r : ExecResult) : option ExecResult :=
  match exit_code r with
  | None =>
      Some {| cmd := cmd r; exit_code := Some new_val;
              stdout := stdout r; stderr := stderr r |}
  | Some old => if old =? new_val then Some r else None
  end.

End exec_result.

Import exec_result.

(** ** Exceptions, events and the monad of the executor *)

Module errno.
Definition EINVAL : Z := 22.
Definition EPIPE : Z := 32.
Definition ESHUTDOWN : Z := 108.
End errno.

(** The exceptions the two modules raise, catch or let through. *)
Inductive exn :=
| re_error                       (* re.error: the pattern does not compile *)
| IndexError
| OSError (errno : Z)
| TimeoutExpired                 (* subprocess.TimeoutExpired *)
| RuntimeError                   (* a second, different exit code *)
| ExecHelperTimeoutError (result : ExecResult) (timeout : option Z).

(** A pure computation that may raise. *)
Inductive result (A : Type) :=
| Ok (a : A)
| Err (e : exn).
Arguments Ok {A} a.
Arguments Err {A} e.

Definition result_bind {A B} (r : result A) (k : A -> result B) : result B :=
  match r with
  | Ok a => k a
  | Err e => Err e
  end.

Notation "'let?' x ':=' c 'in' k" := (result_bind c (fun x => k))
  (at level 10, x name, c at level 100, k at level 200).

Definition getitem {A} (l : list A) (i : Z) : result A :=
  match Py.index l i with
  | Some a => Ok a
  | None => Err IndexError
  end.

Fixpoint for_each {A S} (items : list A) (body : S -> A -> result S) (s : S)
  : result S :=
  match items with
  | [] => Ok s
  | x :: rest => let? s' := body s x in for_each rest body s'
  end.

Inductive stream := STDOUT | STDERR.
Inductive redirect := PIPE | DEVNULL.
Inductive level := DEBUG | INFO | WARNING.

(** The keyword arguments of [subprocess.Popen] as [execute_async] gives
    them. *)
Record Popen_args := mkPopen_args {
  args : list str;
  popen_stdout : redirect;
  popen_stderr : redirect;
  popen_stdin : redirect;
  shell : bool;
  cwd : option str;
  env : option (list (str * str));
  universal_newlines : bool;
}.

(** Log records. The templates of [_log_templates] are not among the
    sources: a record keeps the template's name and the values it is
    formatted with. *)
Inductive message :=
| CMD_EXEC (cmd : str)
| CMD_WAIT_ERROR (result : ExecResult) (timeout : option Z)
| Command_exit_code (cmd : str) (exit_code : option Z)
| completed_just_after_timeout (command : str)
| STDIN_closed_PIPE
| STDIN_broken_PIPE.

(** Everything the executor does to the outside, in the order it does it. *)
Inductive event :=
| lock_acquire
| lock_release
| log (lvl : level) (msg : message)
| Popen (a : Popen_args)
| stdin_write (data : bytes)
| stdin_close
| wait (timeout : option Z)
| poll
| kill
| submit (s : stream)                 (* a reader handed to the thread pool *)
| futures_wait (timeout : Z)
| future_cancel (s : stream)
| read_chunk (s : stream) (chunk : bytes) (verbose : bool).

Definition trace := list event.

(** The three moments at which the main thread blocks while the two readers
    run: the bounded wait for the process, the one-second join, the
    five-second join after the kill. *)
Inductive phase := during_wait | during_join_1 | during_join_5.

(** What the outside answers. [None] is "no error" for the calls that can
    raise [OSError n], and "no exit code" for [wait] and [poll]. *)
Record environment := mkEnvironment {
  finditer : str -> str -> option (list (list (Z * Z)));
  Popen_reply : option Z;
  write_reply : option Z;
  close_reply : option Z;
  wait_reply : option Z;
  poll_reply : nat -> option Z;
  kill_reply : option Z;
  output : phase -> stream -> list bytes;
}.

Inductive outcome (A : Type) :=
| Ret (a : A)
| Raise (e : exn)
| Hang.
Arguments Ret {A} a.
Arguments Raise {A} e.
Arguments Hang {A}.

Definition M (A : Type) : Type := trace -> outcome A * trace.

Definition ret {A} (a : A) : M A := fun t => (Ret a, t).
Definition raise {A} (e : exn) : M A := fun t => (Raise e, t).
Definition hang {A} : M A := fun t => (Hang, t).

Definition bind {A B} (m : M A) (k : A -> M B) : M B :=
  fun t =>
    match m t with
    | (Ret a, t') => k a t'
    | (Raise e, t') => (Raise e, t')
    | (Hang, t') => (Hang, t')
    end.

Notation "'let!' x ':=' c 'in' k" := (bind c (fun x => k))
  (at level 10, x name, c at level 100, k at level 200).
Notation "'do!' c 'in' k" := (bind c (fun _ => k))
  (at level 10, c at level 100, k at level 200).

Definition lift {A} (r : result A) : M A :=
  match r with
  | Ok a => ret a
  | Err e => raise e
  end.

Definition emit (e : event) : M unit := fun t => (Ret tt, t ++ [e]).

(** [try: body except ...: handler]: [handler e] is [None] when no clause
    catches [e]. *)
Definition try_except {A} (body : M A) (handler : exn -> option (M A)) : M A :=
  fun t =>
    match body t with
    | (Raise e, t') =>
        match handler e with
        | Some h => h t'
        | None => (Raise e, t')
        end
    | other => other
    end.

(** [with lock: body]: the lock is released on every way out of [body]
    that comes back. *)
Definition with_lock {A} (body : M A) : M A :=
  fun t =>
    match body (t ++ [lock_acquire]) with
    | (Hang, t') => (Hang, t')
    | (r, t') => (r, t' ++ [lock_release])
    end.

(** ** api.py: the abstract executor *)

Module api.

Definition MASKED : str := "<*masked*>".

(** What [execute] forwards untouched to the two abstract methods. *)
Record extra := mkExtra {
  kw_cwd : option str;
  kw_env : option (list (str * str));
}.

Inductive stdin_data :=
| stdin_str (s : str)
| stdin_bytes (b : bytes)
| stdin_bytearray (b : bytes).

(** The keyword arguments of [execute]: the optional arguments of
    [execute_async] a caller may name, and the rest. An absent flag takes
    the default of the callee. *)
Record kwargs := mkKwargs {
  kw_stdin : option stdin_data;
  kw_open_stdout : option bool;
  kw_open_stderr : option bool;
  kw_log_mask_re : option str;
  kw_extra : extra;
}.

Section Masking.

Variable E : environment.

(** The list [indexes] once the loop over the matches is done. A match
    is the list of [match.span(idx + 1)] for each of its groups. *)
Definition mask_indexes (matches : list (list (Z * Z))) (text : str)
  : list Z :=
  ([0] ++ flat_map (fun m => flat_map (fun sp => [sp.1; sp.2]) m) matches)
    ++ [len text].

(** The inner function [mask] of [_mask_command]. [finditer E rules text]
    stands for [re.finditer(rules, text)]: the matches from left to right,
    or no answer when the pattern does not compile. *)
Definition mask (text rules : str) : result str :=
  match finditer E rules text with
  | None => Err re_error
  | Some matches =>
      let indexes := mask_indexes matches text in
      let? masked :=
        for_each (Py.range 0 (Z.of_nat (List.length indexes) - 2) 2)
          (fun masked idx =>
             let? start := getitem indexes idx in
             let? end_ := getitem indexes (idx + 1) in
             Ok (masked +:+ Py.slice text start end_ +:+ MASKED))
          "" in
      let? a := getitem indexes (-2) in
      let? b := getitem indexes (-1) in
      Ok (masked +:+ Py.slice text a b)
  end.

(** [if rule: cmd = mask(cmd, rule)] *)
Definition mask_if (rule : option str) (cmd : str) : result str :=
  match rule with
  | Some rules => if Py.truthy rule then mask cmd rules else Ok cmd
  | None => Ok cmd
  end.

Definition _mask_command (self_log_mask_re : option str) (cmd : str)
           (log_mask_re : option str) : result str :=
  let cmd := Py.rstrip cmd in
  let? cmd := mask_if self_log_mask_re cmd in
  let? cmd := mask_if log_mask_re cmd in
  Ok cmd.

End Masking.

(** The abstract base class: an implementation gives the two abstract
    methods; [execute] is written once against them. *)
Class ExecHelper (Self Interface IO : Type) := {
  log_mask_re : Self -> option str;
  execute_async :
    environment -> Self -> str -> option stdin_data -> bool -> bool ->
    bool -> option str -> extra ->
    M (Interface * unit * option IO * option IO);
  _exec_command :
    environment -> Self -> str -> Interface -> option IO -> option IO ->
    option Z -> bool -> option str -> extra -> M ExecResult;
}.

Section Execute.

Context {Self Interface IO : Type} `{ExecHelper Self Interface IO}.
Variable E : environment.

(** [ExecHelper.execute]. The timeout is a number of seconds or [None];
    the default of the module [constants] is not among the sources, so the
    timeout is always given. All keyword arguments reach both methods;
    [_exec_command] uses [log_mask_re] only. *)
Definition execute (self : Self) (command : str) (verbose : bool)
           (timeout : option Z) (kw : kwargs) : M ExecResult :=
  with_lock (
    let! launched :=
      execute_async E self command (kw_stdin kw)
        (default true (kw_open_stdout kw))
        (default true (kw_open_stderr kw))
        verbose (kw_log_mask_re kw) (kw_extra kw) in
    let '(iface, _, stderr, stdout) := launched in
    let! result :=
      _exec_command E self command iface stdout stderr timeout verbose
        (kw_log_mask_re kw) (kw_extra kw) in
    do! emit (log (if verbose then INFO else DEBUG)
                  (Command_exit_code (cmd result) (exit_code result))) in
    ret result).

End Execute.

End api.

(** ** subprocess_runner.py: the local-process executor *)

Module subprocess_runner.

Import api.

(** *** SingletonMeta *)

(** An instance of [Subprocess]: the masking rule given to [__init__]
    (the lock and the logger carry no data here; [__process] stays
    [None]). *)
Record Subprocess := mkSubprocess {
  self_log_mask_re : option str;
}.

(** The interpreter state the metaclass works on: the objects built so
    far, named by their position, and the class attribute [_instances],
    a dict from a class (its name) to its instance. *)
Record interpreter := mkInterpreter {
  objects : list Subprocess;
  _instances : gmap string nat;
}.

(** The call of [super(SingletonMeta, cls).__call__] with the arguments
    of the constructor: a new object, initialised by
    [Subprocess.__init__]. *)
Definition Subprocess_new (log_mask_re : option str) (st : interpreter)
  : nat * interpreter :=
  (List.length (objects st),
   {| objects := objects st ++ [{| self_log_mask_re := log_mask_re |}];
      _instances := _instances st |}).

(** [SingletonMeta.__call__] for the class [cls], whose constructor is
    [construct]. *)
Definition SingletonMeta_call (cls : string)
           (construct : interpreter -> nat * interpreter)
           (st : interpreter) : nat * interpreter :=
  match _instances st !! cls with
  | Some obj => (obj, st)
  | None =>
      let '(obj, st') := construct st in
      (obj, {| objects := objects st';
               _instances := <[cls := obj]> (_instances st') |})
  end.

(** The expression [Subprocess(log_mask_re)]. *)
Definition Subprocess_call (log_mask_re : option str) (st : interpreter)
  : nat * interpreter :=
  SingletonMeta_call "Subprocess" (Subprocess_new log_mask_re) st.

(** A sequence of constructor calls, with the object each one gives. *)
Fixpoint Subprocess_calls (rules : list (option str)) (st : interpreter)
  : list nat * interpreter :=
  match rules with
  | [] => ([], st)
  | r :: rest =>
      let '(obj, st1) := Subprocess_call r st in
      let '(objs, st2) := Subprocess_calls rest st1 in
      (obj :: objs, st2)
  end.

(** *** The process and its pipes *)

Inductive IO := pipe (s : stream).

(** A [subprocess.Popen] object: what it was started with. *)
Record Popen_obj := mkPopen_obj {
  started_with : Popen_args;
}.

Definition Popen_stdout (p : Popen_obj) : option IO :=
  match popen_stdout (started_with p) with
  | PIPE => Some (pipe STDOUT)
  | DEVNULL => None
  end.

Definition Popen_stderr (p : Popen_obj) : option IO :=
  match popen_stderr (started_with p) with
  | PIPE => Some (pipe STDERR)
  | DEVNULL => None
  end.

Section Calls.

Variable E : environment.

Definition subprocess_Popen (a : Popen_args) : M Popen_obj :=
  do! emit (Popen a) in
  match Popen_reply E with
  | None => ret {| started_with := a |}
  | Some n => raise (OSError n)
  end.

Definition Popen_stdin_write (data : bytes) : M unit :=
  do! emit (stdin_write data) in
  match write_reply E with
  | None => ret tt
  | Some n => raise (OSError n)
  end.

Definition Popen_stdin_close : M unit :=
  do! emit stdin_close in
  match close_reply E with
  | None => ret tt
  | Some n => raise (OSError n)
  end.

Definition Popen_kill : M unit :=
  do! emit kill in
  match kill_reply E with
  | None => ret tt
  | Some n => raise (OSError n)
  end.

Definition is_poll (e : event) : bool :=
  match e with
  | poll => true
  | _ => false
  end.

(** The n-th call of [poll] gets the n-th answer. *)
Definition Popen_poll : M (option Z) :=
  fun t => (Ret (poll_reply E (List.length (List.filter is_poll t))), t ++ [poll]).

(** The answer of [interface.wait(timeout=timeout)], once the call has
    been issued: the exit code, or [TimeoutExpired] when the bound runs
    out; without a bound the call only comes back with an exit code. *)
Definition Popen_wait_returns (timeout : option Z) : M Z :=
  match wait_reply E, timeout with
  | Some code, _ => ret code
  | None, Some _ => raise TimeoutExpired
  | None, None => hang
  end.

(** Modelled from the spec: [ExecResult.read_stdout] and [read_stderr]
    are not among the sources. A reader appends each chunk it reads
    from [src] to its stream of the result, in the order read, and
    hands it to the log when [verbose] is set; without a pipe it reads
    nothing. [output E p s] is what the pipe of stream [s] delivers
    while the main thread is blocked in phase [p]. *)
Fixpoint read_chunks (append : bytes -> ExecResult -> ExecResult)
         (s : stream) (verbose : bool) (chunks : list bytes)
         (r : ExecResult) : M ExecResult :=
  match chunks with
  | [] => ret r
  | chunk :: rest =>
      do! emit (read_chunk s chunk verbose) in
      read_chunks append s verbose rest (append chunk r)
  end.

Definition read_from (append : bytes -> ExecResult -> ExecResult)
           (p : phase) (src : option IO) (verbose : bool)
           (r : ExecResult) : M ExecResult :=
  match src with
  | None => ret r
  | Some (pipe s) => read_chunks append s verbose (output E p s) r
  end.

(** The two readers [poll_stdout] and [poll_stderr] during one phase. *)
Definition readers (p : phase) (stdout stderr : option IO)
           (verbose : bool) (r : ExecResult) : M ExecResult :=
  let! r := read_from append_stdout p stdout verbose r in
  read_from append_stderr p stderr verbose r.

(** [result.exit_code = exit_code] *)
Definition assign_exit_code (code : Z) (r : ExecResult) : M ExecResult :=
  match set_exit_code code r with
  | Some r' => ret r'
  | None => raise RuntimeError
  end.

End Calls.

(** *** Subprocess *)

Section Methods.

Variable E : environment.

(** What the [try] block of the kill leaves behind: control falls
    through to the timeout error, or the [except] clause has returned
    the result. *)
Inductive after_kill :=
| fell_through (r : ExecResult)
| returned (r : ExecResult).

(** [Subprocess._exec_command]. The two readers run in the thread pool
    while the main thread is blocked: what they read is added to [result]
    at the three calls that block ([interface.wait], the join of one
    second, the join of five seconds), by [readers]. The timeout is only
    handed on: to [wait], to the log record and to the error. *)
Definition _exec_command (self : Subprocess) (command : str)
           (interface : Popen_obj) (stdout stderr : option IO)
           (timeout : option Z) (verbose : bool)
           (log_mask_re : option str) (kw : extra) : M ExecResult :=
  (* Store command with hidden data *)
  let! cmd_for_log :=
    lift (_mask_command E (self_log_mask_re self) command log_mask_re) in
  let result := exec_result.new cmd_for_log in
  do! emit (submit STDOUT) in
  do! emit (submit STDERR) in
  do! emit (wait timeout) in
  let! result := readers E during_wait stdout stderr verbose result in
  let! exit_code :=
    try_except
      (let! code := Popen_wait_returns E timeout in ret (Some code))
      (fun e =>
         match e with
         | TimeoutExpired => Some (Popen_poll E)   (* Update exit code *)
         | _ => None
         end) in
  (* Minimal timeout to complete polling *)
  do! emit (futures_wait 1) in
  let! result := readers E during_join_1 stdout stderr verbose result in
  (* Process closed? *)
  match exit_code with
  | Some code =>
      let! result := assign_exit_code code result in
      ret result
  | None =>
      (* Kill not ended process and wait for close *)
      let! k :=
        try_except
          (do! Popen_kill E in
           do! emit (futures_wait 5) in
           let! result :=
             readers E during_join_5 stdout stderr verbose result in
           (* Force stop cycle if no exit code after kill *)
           do! emit (future_cancel STDOUT) in
           do! emit (future_cancel STDERR) in
           ret (fell_through result))
          (fun e =>
             match e with
             | OSError _ =>
                 Some (
                   let! exit_code := Popen_poll E in
                   match exit_code with
                   | Some code =>          (* Nothing to kill *)
                       do! emit (log WARNING
                                     (completed_just_after_timeout command)) in
                       let! result := assign_exit_code code result in
                       ret (returned result)
                   | None => raise e       (* Some other error *)
                   end)
             | _ => None
             end) in
      match k with
      | returned result => ret result
      | fell_through result =>
          do! emit (log DEBUG (CMD_WAIT_ERROR result timeout)) in
          raise (ExecHelperTimeoutError result timeout)
      end
  end.

Definition to_bytes (stdin : stdin_data) : bytes :=
  match stdin with
  | stdin_str s => Py.encode_utf8 s
  | stdin_bytearray b => b
  | stdin_bytes b => b
  end.

(** [Subprocess.execute_async]; the tuple it returns is
    [(process, None, process.stderr, process.stdout)]. *)
Definition execute_async (self : Subprocess) (command : str)
           (stdin : option stdin_data) (open_stdout open_stderr : bool)
           (verbose : bool) (log_mask_re : option str) (kw : extra)
  : M (Popen_obj * unit * option IO * option IO) :=
  let! cmd_for_log :=
    lift (_mask_command E (self_log_mask_re self) command log_mask_re) in
  do! emit (log (if verbose then INFO else DEBUG) (CMD_EXEC cmd_for_log)) in
  let! process :=
    subprocess_Popen E
      {| args := [command];
         popen_stdout := if open_stdout then PIPE else DEVNULL;
         popen_stderr := if open_stderr then PIPE else DEVNULL;
         popen_stdin := PIPE;
         shell := true;
         cwd := kw_cwd kw;
         env := kw_env kw;
         universal_newlines := false |} in
  do! match stdin with
      | None => ret tt
      | Some stdin =>
          let stdin := to_bytes stdin in
          do! try_except (Popen_stdin_write E stdin)
                (fun exc =>
                   match exc with
                   | OSError n =>
                       Some (
                         if n =? errno.EINVAL then
                           emit (log WARNING STDIN_closed_PIPE)
                         else if (n =? errno.EPIPE) || (n =? errno.ESHUTDOWN) then
                           emit (log WARNING STDIN_broken_PIPE)
                         else
                           do! Popen_kill E in
                           raise exc)
                   | _ => None
                   end) in
          try_except (Popen_stdin_close E)
            (fun exc =>
               match exc with
               | OSError n =>
                   Some (
                     if (n =? errno.EINVAL) || (n =? errno.EPIPE)
                        || (n =? errno.ESHUTDOWN) then
                       ret tt
                     else
                       do! Popen_kill E in
                       raise exc)
               | _ => None
               end)
      end in
  ret (process, tt, Popen_stderr process, Popen_stdout process).

End Methods.

#[export] Instance Subprocess_ExecHelper : ExecHelper Subprocess Popen_obj IO := {
  log_mask_re := self_log_mask_re;
  execute_async := execute_async;
  _exec_command := _exec_command;
}.

End subprocess_runner.

Import api subprocess_runner.

(** ** What a run leaves in the trace and in the result *)

(** The chunks one reader reads from [src] during phase [p]. *)
Definition chunks_of (E : environment) (p : phase) (src : option IO)
  : list bytes :=
  match src with
  | Some (pipe s) => output E p s
  | None => []
  end.

(** The events of one reader during phase [p]. *)
Definition reads_of (E : environment) (p : phase) (src : option IO)
           (verbose : bool) : list event :=
  match src with
  | Some (pipe s) => map (fun chunk => read_chunk s chunk verbose) (output E p s)
  | None => []
  end.

(** The events of both readers during phase [p]. *)
Definition phase_events (E : environment) (p : phase) (stdout stderr : option IO)
           (verbose : bool) : list event :=
  reads_of E p stdout verbose ++ reads_of E p stderr verbose.

(** The bytes a reader has read from [src] over the phases [ps]. *)
Definition captured (E : environment) (ps : list phase) (src : option IO)
  : bytes :=
  List.concat (flat_map (fun p => chunks_of E p src) ps).

(** The result after the phases [ps], with exit code [code]. *)
Definition sink (E : environment) (cmd_for_log : str) (code : option Z)
           (ps : list phase) (stdout stderr : option IO) : ExecResult :=
  {| cmd := cmd_for_log;
     exit_code := code;
     stdout := captured E ps stdout;
     stderr := captured E ps stderr |}.

Definition npolls (t : trace) : nat := List.length (List.filter is_poll t).

(** The result an outcome of [_exec_command] carries to the caller: the
    one returned, or the one inside the timeout error. *)
Definition carried (o : outcome ExecResult) : option ExecResult :=
  match o with
  | Ret r => Some r
  | Raise (ExecHelperTimeoutError r _) => Some r
  | _ => None
  end.

Definition is_log (e : event) : bool :=
  match e with
  | log _ _ => true
  | _ => false
  end.

(** The summary record of [execute]. *)
Definition is_summary (e : event) : bool :=
  match e with
  | log _ (Command_exit_code _ _) => true
  | _ => false
  end.

Definition is_warning (e : event) : bool :=
  match e with
  | log WARNING _ => true
  | _ => false
  end.

Definition is_kill (e : event) : bool :=
  match e with
  | kill => true
  | _ => false
  end.

Definition is_Popen (e : event) : bool :=
  match e with
  | Popen _ => true
  | _ => false
  end.

(** The errors of the broken-pipe family, as [execute_async] tests them. *)
Definition broken_pipe (n : Z) : bool :=
  (n =? errno.EINVAL) || (n =? errno.EPIPE) || (n =? errno.ESHUTDOWN).

(** A reply that is no error, or an error of the broken-pipe family. *)
Definition tolerated (reply : option Z) : bool :=
  match reply with
  | None => true
  | Some n => broken_pipe n
  end.

Definition is_wait_error (e : event) : bool :=
  match e with
  | log _ (CMD_WAIT_ERROR _ _) => true
  | _ => false
  end.

Definition not_log (e : event) : bool := negb (is_log e).

(** ** What the masking rule asks for *)

(** The spans of all groups of all matches, in the order [mask] meets
    them. *)
Definition group_spans (matches : list (list (Z * Z))) : list (Z * Z) :=
  List.concat matches.

(** What the masking rule asks for, read off the spans and not computed
    through [indexes], to be compared with [mask]: from position [pos] on, the text up to the next span, the marker in place of the
    span, and so on; after the last span, the rest of the text. *)
Fixpoint redact (text : str) (pos : Z) (spans : list (Z * Z)) : str :=
  match spans with
  | [] => Py.slice text pos (Py.len text)
  | sp :: rest => Py.slice text pos sp.1 +:+ MASKED +:+ redact text sp.2 rest
  end.

(** The same walk with each span left as it is in the text. *)
Fixpoint restore (text : str) (pos : Z) (spans : list (Z * Z)) : str :=
  match spans with
  | [] => Py.slice text pos (Py.len text)
  | sp :: rest =>
      Py.slice text pos sp.1 +:+ Py.slice text sp.1 sp.2
        +:+ restore text sp.2 rest
  end.

(** Spans that lie in the text one after the other, from [pos] on. *)
Fixpoint ascending (pos : Z) (spans : list (Z * Z)) (stop : Z) : Prop :=
  match spans with
  | [] => pos <= stop
  | sp :: rest => pos <= sp.1 /\ sp.1 <= sp.2 /\ ascending sp.2 rest stop
  end.

(** The part of [redact] the loop of [mask] builds, and the end of the last
    span, where the final part starts. *)
Fixpoint redact_loop (text : str) (pos : Z) (spans : list (Z * Z)) : str :=
  match spans with
  | [] => ""
  | sp :: rest => Py.slice text pos sp.1 +:+ MASKED +:+ redact_loop text sp.2 rest
  end.

Fixpoint last_end (pos : Z) (spans : list (Z * Z)) : Z :=
  match spans with
  | [] => pos
  | sp :: rest => last_end sp.2 rest
  end.

Definition flat (spans : list (Z * Z)) : list Z :=
  flat_map (fun sp => [sp.1; sp.2]) spans.

(** ** Sample environments and arguments *)

Module Samples.

Definition no_extra : extra := {| kw_cwd := None; kw_env := None |}.

Definition no_kwargs : kwargs :=
  {| kw_stdin := None; kw_open_stdout := None; kw_open_stderr := None;
     kw_log_mask_re := None; kw_extra := no_extra |}.

Definition plain : Subprocess := {| self_log_mask_re := None |}.

(** A process started with both pipes open. *)
Definition child (command : str) : Popen_obj :=
  {| started_with :=
       {| args := [command]; popen_stdout := PIPE; popen_stderr := PIPE;
          popen_stdin := PIPE; shell := true; cwd := None; env := None;
          universal_newlines := false |} |}.

(** The answers of [re.finditer] on the patterns and texts used below:
    the spans of the groups of each match, [(-1, -1)] for a group that took
    no part in the match; the pattern ["("] does not compile. *)
Definition re_table (rules text : str) : option (list (list (Z * Z))) :=
  if String.eqb rules "(" then None
  else if String.eqb rules "(a)|(b)" && String.eqb text "xbyz"
  then Some [[(-1, -1); (1, 2)]]
  else if String.eqb rules "--password=(\S+)"
          && String.eqb text "login --password=hunter2 --quiet"
  then Some [[(17, 24)]]
  else Some [].

(** [printf hi]: exits with code 0 in time, after writing [hi]. *)
Definition E_printf : environment :=
  {| finditer := re_table; Popen_reply := None; write_reply := None;
     close_reply := None; wait_reply := Some 0; poll_reply := fun _ => Some 0;
     kill_reply := None;
     output := fun p s =>
       match p, s with
       | during_wait, STDOUT => [[Byte.x68; Byte.x69]]
       | _, _ => []
       end |}.

(** A command that exits with code 0 in time and writes nothing. *)
Definition E_quiet : environment :=
  {| finditer := re_table; Popen_reply := None; write_reply := None;
     close_reply := None; wait_reply := Some 0; poll_reply := fun _ => Some 0;
     kill_reply := None; output := fun _ _ => [] |}.

(** [sleep 10] under a bound of one second: never seen exited; the kill
    goes through. *)
Definition E_sleep : environment :=
  {| finditer := re_table; Popen_reply := None; write_reply := None;
     close_reply := None; wait_reply := None; poll_reply := fun _ => None;
     kill_reply := None; output := fun _ _ => [] |}.

(** The bound runs out, and the process is found exited with code 0 by the
    [poll] that follows. *)
Definition E_late : environment :=
  {| finditer := re_table; Popen_reply := None; write_reply := None;
     close_reply := None; wait_reply := None; poll_reply := fun _ => Some 0;
     kill_reply := None; output := fun _ _ => [] |}.

(** The bound runs out after the process wrote [a]; the kill is refused
    with EPERM (1) and the process stays alive. *)
Definition E_kill_denied : environment :=
  {| finditer := re_table; Popen_reply := None; write_reply := None;
     close_reply := None; wait_reply := None; poll_reply := fun _ => None;
     kill_reply := Some 1;
     output := fun p s =>
       match p, s with
       | during_wait, STDOUT => [[Byte.x61]]
       | _, _ => []
       end |}.

(** The kill fails with ESRCH (3): the process has exited with code 0
    between the first [poll] and the kill. *)
Definition E_kill_race : environment :=
  {| finditer := re_table; Popen_reply := None; write_reply := None;
     close_reply := None; wait_reply := None;
     poll_reply := fun n => match n with O => None | S _ => Some 0 end;
     kill_reply := Some 3; output := fun _ _ => [] |}.

(** The bound runs out, the kill goes through, and from then on the
    process is gone, with code -9. *)
Definition E_killed : environment :=
  {| finditer := re_table; Popen_reply := None; write_reply := None;
     close_reply := None; wait_reply := None;
     poll_reply := fun n => match n with O => None | S _ => Some (-9) end;
     kill_reply := None; output := fun _ _ => [] |}.

(** The child has closed its input: the write fails with EPIPE (32). *)
Definition E_broken_pipe : environment :=
  {| finditer := re_table; Popen_reply := None; write_reply := Some 32;
     close_reply := None; wait_reply := Some 0; poll_reply := fun _ => Some 0;
     kill_reply := None; output := fun _ _ => [] |}.

(** The write fails with EIO (5). *)
Definition E_write_fails : environment :=
  {| finditer := re_table; Popen_reply := None; write_reply := Some 5;
     close_reply := None; wait_reply := Some 0; poll_reply := fun _ => Some 0;
     kill_reply := None; output := fun _ _ => [] |}.

End Samples.

(** ** api.py, continued: the context manager and the two checks *)

Module api_checks.

Import api.

(** [ExecHelper.__enter__]: the lock is taken, the helper is the value of
    the [with] statement. *)
Definition __enter__ {Self : Type} (self : Self) : M Self :=
  do! emit lock_acquire in
  ret self.

(** [ExecHelper.__exit__] *)
Definition __exit__ {Self : Type} (self : Self) : M unit :=
  emit lock_release.

(** [with self: body]: [__exit__] runs on every way out of [body] that
    comes back, and lets an exception of [body] through. *)
Definition with_helper {Self A : Type} (self : Self) (body : Self -> M A)
  : M A :=
  let! helper := __enter__ self in
  fun t =>
    match body helper t with
    | (Hang, t') => (Hang, t')
    | (r, t') => (r, (__exit__ self t').2)
    end.

(** The records the two checks write with [logger.error]: the text put in
    front ([append]), and the values the message is formatted with. *)
Inductive error_message :=
| returned_exit_code (append : str) (cmd : str) (exit_code : option Z)
                     (expected : list Z)
| STDERR_while_not_expected (append : str) (cmd : str) (exit_code : option Z).

(** What the checks raise: an exception that comes out of [execute], or
    [exceptions.CalledProcessError] with its two arguments. *)
Inductive check_exn :=
| passed_on (e : exn)
| CalledProcessError (result : ExecResult) (expected : option (list Z)).

Inductive checked (A : Type) :=
| Returns (a : A)
| Raises (e : check_exn)
| Blocks.
Arguments Returns {A} a.
Arguments Raises {A} e.
Arguments Blocks {A}.

(** The trace of the executor, and beside it the error records, in the
    order written. *)
Definition journal : Type := trace * list error_message.

Definition C (A : Type) : Type := journal -> checked A * journal.

Definition creturn {A} (a : A) : C A := fun j => (Returns a, j).
Definition craise {A} (e : check_exn) : C A := fun j => (Raises e, j).

Definition cbind {A B} (m : C A) (k : A -> C B) : C B :=
  fun j =>
    match m j with
    | (Returns a, j') => k a j'
    | (Raises e, j') => (Raises e, j')
    | (Blocks, j') => (Blocks, j')
    end.

Notation "'let!!' x ':=' c 'in' k" := (cbind c (fun x => k))
  (at level 10, x name, c at level 100, k at level 200).
Notation "'do!!' c 'in' k" := (cbind c (fun _ => k))
  (at level 10, c at level 100, k at level 200).

(** A call of the executor inside a check. *)
Definition of_M {A} (m : M A) : C A :=
  fun j =>
    match m j.1 with
    | (Ret a, t') => (Returns a, (t', j.2))
    | (Raise e, t') => (Raises (passed_on e), (t', j.2))
    | (Hang, t') => (Blocks, (t', j.2))
    end.

Definition logger_error (msg : error_message) : C unit :=
  fun j => (Returns tt, (j.1, j.2 ++ [msg])).

(** [error_info + '\n' if error_info else ''] *)
Definition append_of (error_info : option str) : str :=
  match error_info with
  | Some info => if Py.truthy error_info then info +:+ String "010" "" else ""
  | None => ""
  end.

(** [ret['exit_code'] in expected]; an exit code that is absent is no
    member. *)
Definition exit_code_in (code : option Z) (expected : list Z) : bool :=
  match code with
  | Some c => existsb (Z.eqb c) expected
  | None => false
  end.

(** The keyword arguments of [check_stderr]: [expected], when given, and
    those of [execute]. *)
Record check_kwargs := mkCheck_kwargs {
  ck_expected : option (list Z);
  ck_rest : kwargs;
}.

Section Checks.

Context {Self Interface IO : Type} `{ExecHelper Self Interface IO}.
Variable E : environment.

(** [proc_enums.exit_codes_to_enums] is not among the sources: it is taken
    as it comes. *)
Variable exit_codes_to_enums : option (list Z) -> list Z.

(** [ExecHelper.check_call] *)
Definition check_call (self : Self) (command : str) (verbose : bool)
           (timeout : option Z) (error_info : option str)
           (expected : option (list Z)) (raise_on_err : bool) (kw : kwargs)
  : C ExecResult :=
  let expected := exit_codes_to_enums expected in
  let!! ret := of_M (execute E self command verbose timeout kw) in
  do!! (if negb (exit_code_in (exit_code ret) expected) then
          do!! logger_error
                 (returned_exit_code (append_of error_info) (cmd ret)
                    (exit_code ret) expected) in
          if raise_on_err then
            craise (CalledProcessError ret (Some expected))
          else creturn tt
        else creturn tt) in
  creturn ret.

(** [ExecHelper.check_stderr] *)
Definition check_stderr (self : Self) (command : str) (verbose : bool)
           (timeout : option Z) (error_info : option str)
           (raise_on_err : bool) (kw : check_kwargs) : C ExecResult :=
  let!! ret :=
    check_call self command verbose timeout error_info (ck_expected kw)
      raise_on_err (ck_rest kw) in
  do!! (match stderr ret with
        | _ :: _ =>
            do!! logger_error
                   (STDERR_while_not_expected (append_of error_info) (cmd ret)
                      (exit_code ret)) in
            if raise_on_err then
              craise (CalledProcessError ret (ck_expected kw))
            else creturn tt
        | [] => creturn tt
        end) in
  creturn ret.

End Checks.

End api_checks.

Import api_checks.

(** ** More to see in a trace *)

Definition is_lock (e : event) : bool :=
  match e with
  | lock_acquire | lock_release => true
  | _ => false
  end.

(** The number of times the lock is held at the end of a trace, over what
    it was at its start: acquisitions less releases. *)
Fixpoint lock_depth (t : trace) : Z :=
  match t with
  | [] => 0
  | lock_acquire :: rest => 1 + lock_depth rest
  | lock_release :: rest => lock_depth rest - 1
  | _ :: rest => lock_depth rest
  end.

Definition is_stdin (e : event) : bool :=
  match e with
  | stdin_write _ | stdin_close => true
  | _ => false
  end.

Definition is_cancel (e : event) : bool :=
  match e with
  | future_cancel _ => true
  | _ => false
  end.

(** The join of five seconds, after the kill. *)
Definition is_long_join (e : event) : bool :=
  match e with
  | futures_wait n => n =? 5
  | _ => false
  end.

(** The calls on the process once it is started: [wait], [poll], [kill],
    and the calls on the two readers. *)
Definition is_wait_stage (e : event) : bool :=
  match e with
  | wait _ | poll | kill | submit _ | futures_wait _ | future_cancel _
  | read_chunk _ _ _ => true
  | _ => false
  end.

(** The registry of the metaclass names objects that exist. *)
Definition registry_ok (st : interpreter) : Prop :=
  forall (cls : string) (obj : nat),
    _instances st !! cls = Some obj -> is_Some (objects st !! obj).

(** The launch of [execute_async] for a command. *)
Definition launched (command : str) (open_stdout open_stderr : bool)
           (kw : extra) : Popen_obj :=
  {| started_with :=
       {| args := [command];
          popen_stdout := if open_stdout then PIPE else DEVNULL;
          popen_stderr := if open_stderr then PIPE else DEVNULL;
          popen_stdin := PIPE;
          shell := true;
          cwd := kw_cwd kw;
          env := kw_env kw;
          universal_newlines := false |} |}.

Module MoreSamples.

(** [exit_codes_to_enums] as the specification has it: without a list,
    the exit code 0 is the one expected. *)
Definition zero_by_default (expected : option (list Z)) : list Z :=
  default [0] expected.

(** [re.finditer] for a pattern without groups: [l] matches twice in
    [hello], and no match has a group. *)
Definition re_no_groups (rules text : str) : option (list (list (Z * Z))) :=
  if String.eqb rules "l" && String.eqb text "hello" then Some [[]; []]
  else Some [].

Definition E_no_groups : environment :=
  {| finditer := re_no_groups; Popen_reply := None; write_reply := None;
     close_reply := None; wait_reply := Some 0; poll_reply := fun _ => Some 0;
     kill_reply := None; output := fun _ _ => [] |}.

(** The launch fails with ENOENT (2), as for a working directory that does
    not exist. *)
Definition E_no_launch : environment :=
  {| finditer := Samples.re_table; Popen_reply := Some 2; write_reply := None;
     close_reply := None; wait_reply := Some 0; poll_reply := fun _ => Some 0;
     kill_reply := None; output := fun _ _ => [] |}.

(** A command that exits with code 1 in time. *)
Definition E_fails : environment :=
  {| finditer := Samples.re_table; Popen_reply := None; write_reply := None;
     close_reply := None; wait_reply := Some 1; poll_reply := fun _ => Some 1;
     kill_reply := None; output := fun _ _ => [] |}.


(** A command that exits with code 1 and writes [!] to its standard
    error. *)
Definition E_fails_noisy : environment :=
  {| finditer := Samples.re_table; Popen_reply := None; write_reply := None;
     close_reply := None; wait_reply := Some 1; poll_reply := fun _ => Some 1;
     kill_reply := None;
     output := fun p s =>
       match p, s with
       | during_wait, STDERR => [[Byte.x21]]
       | _, _ => []
       end |}.

Definition only_expected (expected : option (list Z)) : check_kwargs :=
  {| ck_expected := expected; ck_rest := Samples.no_kwargs |}.

End MoreSamples.

(** ** How the monad and the executor run *)

Section Runs.
Variable E : environment.

Lemma bind_Ret {A B} (m : M A) (k : A -> M B) t a t' :
  m t = (Ret a, t') -> bind m k t = k a t'.
Proof. intros H. unfold bind. now rewrite H. Qed.

Lemma bind_Raise {A B} (m : M A) (k : A -> M B) t e t' :
  m t = (Raise e, t') -> bind m k t = (Raise e, t').
Proof. intros H. unfold bind. now rewrite H. Qed.

Lemma read_chunks_run append s verbose chunks r t :
  read_chunks append s verbose chunks r t =
  (Ret (fold_left (fun r chunk => append chunk r) chunks r),
   t ++ map (fun chunk => read_chunk s chunk verbose) chunks).
Proof.
  revert r t. induction chunks as [|chunk rest IH]; intros r t; simpl.
  - unfold ret. now rewrite app_nil_r.
  - unfold bind, emit. rewrite IH. now rewrite <- app_assoc.
Qed.

Lemma fold_append_stdout chunks r :
  fold_left (fun r chunk => append_stdout chunk r) chunks r =
  {| cmd := cmd r; exit_code := exit_code r;
     stdout := stdout r ++ List.concat chunks; stderr := stderr r |}.
Proof.
  revert r. induction chunks as [|chunk rest IH]; intros r; simpl.
  - rewrite app_nil_r. now destruct r.
  - rewrite IH. simpl. now rewrite <- app_assoc.
Qed.

Lemma fold_append_stderr chunks r :
  fold_left (fun r chunk => append_stderr chunk r) chunks r =
  {| cmd := cmd r; exit_code := exit_code r;
     stdout := stdout r; stderr := stderr r ++ List.concat chunks |}.
Proof.
  revert r. induction chunks as [|chunk rest IH]; intros r; simpl.
  - rewrite app_nil_r. now destruct r.
  - rewrite IH. simpl. now rewrite <- app_assoc.
Qed.

Lemma captured_snoc ps p src :
  captured E (ps ++ [p]) src = captured E ps src ++ List.concat (chunks_of E p src).
Proof.
  unfold captured. rewrite flat_map_app, concat_app. simpl.
  now rewrite app_nil_r.
Qed.

Lemma readers_run p stdout stderr verbose cmd0 code ps t :
  readers E p stdout stderr verbose (sink E cmd0 code ps stdout stderr) t =
  (Ret (sink E cmd0 code (ps ++ [p]) stdout stderr),
   t ++ phase_events E p stdout stderr verbose).
Proof.
  unfold readers, read_from, phase_events, reads_of, sink.
  rewrite !captured_snoc. unfold chunks_of.
  destruct stdout as [[s1]|], stderr as [[s2]|]; unfold bind, ret;
    rewrite ?read_chunks_run, ?fold_append_stdout, ?fold_append_stderr; simpl;
    rewrite ?app_nil_r, <- ?app_assoc; reflexivity.
Qed.
End Runs.

Section Paths.
Variable E : environment.
Variables (self : Subprocess) (command : str) (interface : Popen_obj)
          (stdout stderr : option IO) (timeout : option Z) (verbose : bool)
          (log_mask_re : option str) (kw : extra).
Variable cmd_for_log : str.
Hypothesis Hmask :
  _mask_command E (self_log_mask_re self) command log_mask_re = Ok cmd_for_log.

Let run := _exec_command E self command interface stdout stderr timeout verbose log_mask_re kw.
Let ev p := phase_events E p stdout stderr verbose.
Let snk code ps := sink E cmd_for_log code ps stdout stderr.

Lemma new_is_sink : exec_result.new cmd_for_log = snk None [].
Proof. reflexivity. Qed.

Lemma npolls_app t s : npolls (t ++ s) = (npolls t + npolls s)%nat.
Proof. unfold npolls. now rewrite List.filter_app, List.length_app. Qed.

Lemma npolls_reads p src v : npolls (reads_of E p src v) = 0%nat.
Proof.
  unfold npolls, reads_of. destruct src as [[s]|]; [|reflexivity].
  induction (output E p s); simpl; auto.
Qed.

Lemma npolls_phase p : npolls (ev p) = 0%nat.
Proof. unfold ev, phase_events. now rewrite npolls_app, !npolls_reads. Qed.

Lemma bind_lift_Ok {A B} (a : A) (k : A -> M B) t :
  bind (lift (Ok a)) k t = k a t.
Proof. reflexivity. Qed.

Lemma bind_emit {B} (e : event) (k : unit -> M B) t :
  bind (emit e) k t = k tt (t ++ [e]).
Proof. reflexivity. Qed.

Lemma bind_readers {B} p cmd0 code ps v so se (k : ExecResult -> M B) t :
  bind (readers E p so se v (sink E cmd0 code ps so se)) k t =
  k (sink E cmd0 code (ps ++ [p]) so se) (t ++ phase_events E p so se v).
Proof. unfold bind. now rewrite readers_run. Qed.

Lemma bind_poll {B} (k : option Z -> M B) t :
  bind (Popen_poll E) k t = k (poll_reply E (npolls t)) (t ++ [poll]).
Proof. reflexivity. Qed.

Lemma bind_kill_ok {B} (k : unit -> M B) t :
  kill_reply E = None -> bind (Popen_kill E) k t = k tt (t ++ [kill]).
Proof. intros H. unfold Popen_kill, bind, emit, ret. now rewrite H. Qed.

Lemma bind_kill_fails {B} (k : unit -> M B) t n :
  kill_reply E = Some n ->
  bind (Popen_kill E) k t = (Raise (OSError n), t ++ [kill]).
Proof. intros H. unfold Popen_kill, bind, emit, raise. now rewrite H. Qed.

Lemma try_except_Ret {A} (body : M A) h t a t' :
  body t = (Ret a, t') -> try_except body h t = (Ret a, t').
Proof. intros H. unfold try_except. now rewrite H. Qed.

Lemma try_except_caught {A} (body : M A) h t e m t' :
  body t = (Raise e, t') -> h e = Some m -> try_except body h t = m t'.
Proof. intros H He. unfold try_except. now rewrite H, He. Qed.

Lemma npolls_snoc_other t e : is_poll e = false -> npolls (t ++ [e]) = npolls t.
Proof. intros H. rewrite npolls_app. unfold npolls. simpl. rewrite H. simpl. lia. Qed.

Lemma npolls_snoc_poll t : npolls (t ++ [poll]) = S (npolls t).
Proof. rewrite npolls_app. unfold npolls. simpl. lia. Qed.

Lemma npolls_snoc_phase t p : npolls (t ++ ev p) = npolls t.
Proof. rewrite npolls_app, npolls_phase. lia. Qed.

Ltac count_polls :=
  repeat first
    [ rewrite npolls_snoc_phase
    | rewrite npolls_snoc_poll
    | rewrite npolls_snoc_other by reflexivity ].

Ltac run_prefix :=
  unfold run, _exec_command;
  rewrite Hmask, bind_lift_Ok; cbv beta;
  rewrite new_is_sink; unfold snk;
  rewrite !bind_emit, bind_readers; cbv beta.

Ltac flatten_trace :=
  unfold ev; rewrite <- ?app_assoc; simpl; reflexivity.

(** The exit code the first stage gives: [wait] comes back with it, or the
    bound runs out and [poll] is asked once. *)
Lemma first_stage {B} (k : option Z -> M B) t :
  (wait_reply E = None -> timeout <> None) ->
  bind (try_except
          (let! code := Popen_wait_returns E timeout in ret (Some code))
          (fun e => match e with
                    | TimeoutExpired => Some (Popen_poll E)
                    | _ => None
                    end)) k t =
  match wait_reply E with
  | Some code => k (Some code) t
  | None => k (poll_reply E (npolls t)) (t ++ [poll])
  end.
Proof.
  intros Hb. unfold bind, try_except, Popen_wait_returns.
  destruct (wait_reply E) as [code|]; [reflexivity|].
  destruct timeout as [T|]; [reflexivity|]. now destruct Hb.
Qed.

Lemma exec_exited t code :
  wait_reply E = Some code ->
  run t =
  (Ret (snk (Some code) [during_wait; during_join_1]),
   t ++ [submit STDOUT; submit STDERR; wait timeout] ++ ev during_wait
     ++ [futures_wait 1] ++ ev during_join_1).
Proof.
  intros Hw. run_prefix.
  rewrite first_stage by (rewrite Hw; discriminate). rewrite Hw.
  rewrite bind_emit, bind_readers. cbv beta. simpl app.
  unfold assign_exit_code, set_exit_code, bind, ret. simpl.
  f_equal. flatten_trace.
Qed.

Lemma exec_late_exit t code :
  wait_reply E = None -> timeout <> None ->
  poll_reply E (npolls t) = Some code ->
  run t =
  (Ret (snk (Some code) [during_wait; during_join_1]),
   t ++ [submit STDOUT; submit STDERR; wait timeout] ++ ev during_wait
     ++ [poll; futures_wait 1] ++ ev during_join_1).
Proof.
  intros Hw Ht Hp. run_prefix.
  rewrite first_stage by auto. rewrite Hw. fold (ev during_wait).
  count_polls. rewrite Hp.
  rewrite bind_emit, bind_readers. cbv beta. simpl app.
  unfold assign_exit_code, set_exit_code, bind, ret. simpl.
  f_equal. flatten_trace.
Qed.

Lemma exec_killed t :
  wait_reply E = None -> timeout <> None -> poll_reply E (npolls t) = None ->
  kill_reply E = None ->
  run t =
  (Raise (ExecHelperTimeoutError (snk None [during_wait; during_join_1; during_join_5]) timeout),
   t ++ [submit STDOUT; submit STDERR; wait timeout] ++ ev during_wait
     ++ [poll; futures_wait 1] ++ ev during_join_1
     ++ [kill; futures_wait 5] ++ ev during_join_5
     ++ [future_cancel STDOUT; future_cancel STDERR;
         log DEBUG (CMD_WAIT_ERROR (snk None [during_wait; during_join_1; during_join_5]) timeout)]).
Proof.
  intros Hw Ht Hp Hk. run_prefix.
  rewrite first_stage by auto. rewrite Hw. fold (ev during_wait).
  count_polls. rewrite Hp.
  rewrite bind_emit, bind_readers. cbv beta. simpl app.
  erewrite bind_Ret.
  2:{ apply try_except_Ret. rewrite bind_kill_ok by assumption.
      rewrite bind_emit, bind_readers. cbv beta. rewrite !bind_emit.
      reflexivity. }
  cbv beta iota. rewrite bind_emit. unfold raise. simpl app.
  f_equal. flatten_trace.
Qed.

Lemma exec_kill_failed_exited t n code :
  wait_reply E = None -> timeout <> None -> poll_reply E (npolls t) = None ->
  kill_reply E = Some n -> poll_reply E (S (npolls t)) = Some code ->
  run t =
  (Ret (snk (Some code) [during_wait; during_join_1]),
   t ++ [submit STDOUT; submit STDERR; wait timeout] ++ ev during_wait
     ++ [poll; futures_wait 1] ++ ev during_join_1
     ++ [kill; poll; log WARNING (completed_just_after_timeout command)]).
Proof.
  intros Hw Ht Hp Hk Hp2. run_prefix.
  rewrite first_stage by auto. rewrite Hw. fold (ev during_wait).
  count_polls. rewrite Hp.
  rewrite bind_emit, bind_readers. cbv beta. simpl app.
  erewrite bind_Ret.
  2:{ erewrite try_except_caught.
      2:{ apply bind_kill_fails. eassumption. }
      2:{ reflexivity. }
      fold (ev during_join_1). rewrite bind_poll. count_polls. rewrite Hp2.
      rewrite bind_emit.
      unfold assign_exit_code, set_exit_code, bind, ret. simpl. reflexivity. }
  cbv beta iota. unfold ret. f_equal. flatten_trace.
Qed.

Lemma exec_kill_failed t n :
  wait_reply E = None -> timeout <> None -> poll_reply E (npolls t) = None ->
  kill_reply E = Some n -> poll_reply E (S (npolls t)) = None ->
  run t =
  (Raise (OSError n),
   t ++ [submit STDOUT; submit STDERR; wait timeout] ++ ev during_wait
     ++ [poll; futures_wait 1] ++ ev during_join_1 ++ [kill; poll]).
Proof.
  intros Hw Ht Hp Hk Hp2. run_prefix.
  rewrite first_stage by auto. rewrite Hw. fold (ev during_wait).
  count_polls. rewrite Hp.
  rewrite bind_emit, bind_readers. cbv beta. simpl app.
  erewrite bind_Raise.
  2:{ erewrite try_except_caught.
      2:{ apply bind_kill_fails. eassumption. }
      2:{ reflexivity. }
      fold (ev during_join_1). rewrite bind_poll. count_polls. rewrite Hp2.
      unfold raise. reflexivity. }
  f_equal. flatten_trace.
Qed.

Lemma exec_blocked t :
  wait_reply E = None -> timeout = None ->
  run t =
  (Hang, t ++ [submit STDOUT; submit STDERR; wait None] ++ ev during_wait).
Proof.
  intros Hw Ht. run_prefix. subst timeout.
  unfold bind at 1, try_except, bind at 1, Popen_wait_returns, hang.
  rewrite Hw. f_equal. flatten_trace.
Qed.
End Paths.

Lemma exec_mask_error E self command interface stdout stderr timeout verbose
      log_mask_re kw e t :
  _mask_command E (self_log_mask_re self) command log_mask_re = Err e ->
  _exec_command E self command interface stdout stderr timeout verbose
    log_mask_re kw t = (Raise e, t).
Proof. intros H. unfold _exec_command. now rewrite H. Qed.

Lemma filter_reads_nil (f : event -> bool) E p src verbose :
  (forall s chunk, f (read_chunk s chunk verbose) = false) ->
  List.filter f (reads_of E p src verbose) = [].
Proof.
  intros Hf. unfold reads_of. destruct src as [[s]|]; [|reflexivity].
  induction (output E p s) as [|chunk rest IH]; simpl; [reflexivity|].
  now rewrite Hf.
Qed.

Lemma filter_phase_nil (f : event -> bool) E p stdout stderr verbose :
  (forall s chunk, f (read_chunk s chunk verbose) = false) ->
  List.filter f (phase_events E p stdout stderr verbose) = [].
Proof.
  intros Hf. unfold phase_events.
  now rewrite List.filter_app, !filter_reads_nil.
Qed.

(** Filtering a trace written as a chain of appended pieces. *)
Ltac filter_trace :=
  repeat first
    [ rewrite List.filter_app
    | rewrite filter_phase_nil by reflexivity
    | progress simpl ].

(** Unfolds one run of [execute_async] into the cases of the answers it
    gets. *)
Ltac async_cases E :=
  unfold execute_async, subprocess_Popen, Popen_stdin_write, Popen_stdin_close,
    Popen_kill, try_except, bind, emit, ret, raise, lift;
  repeat match goal with
         | H : _ = Ok _ |- _ => rewrite H
         | H : _ = Err _ |- _ => rewrite H
         | H : Popen_reply E = _ |- _ => rewrite H
         | H : write_reply E = _ |- _ => rewrite H
         | H : close_reply E = _ |- _ => rewrite H
         | H : kill_reply E = _ |- _ => rewrite H
         end;
  repeat match goal with
         | |- context [match ?x with _ => _ end] =>
             match x with
             | Popen_reply E => destruct (Popen_reply E) eqn:?
             | write_reply E => destruct (write_reply E) eqn:?
             | close_reply E => destruct (close_reply E) eqn:?
             | kill_reply E => destruct (kill_reply E) eqn:?
             end
         | |- context [if (?a =? ?b) then _ else _] => destruct (a =? b) eqn:?
         | |- context [if (?a || ?b) then _ else _] => destruct (a || b) eqn:?
         end;
  simpl; rewrite <- ?app_assoc; simpl.

(** *** Masking raises nothing but the error of the pattern *)

Lemma range_from_bounds fuel start stop step x :
  0 < step -> In x (Py.range_from fuel start stop step) -> start <= x < stop.
Proof.
  intros Hstep. revert start.
  induction fuel as [|fuel IH]; intros start; simpl; [tauto|].
  destruct (start <? stop) eqn:Hlt; simpl; [|tauto].
  apply Z.ltb_lt in Hlt.
  intros [<-|Hin]; [lia|]. apply IH in Hin. lia.
Qed.

Lemma getitem_in_range {A} (l : list A) i :
  - Z.of_nat (List.length l) <= i < Z.of_nat (List.length l) ->
  exists a, getitem l i = Ok a.
Proof.
  intros Hi. unfold getitem, Py.index.
  set (j := if i <? 0 then i + Z.of_nat (List.length l) else i).
  assert (Hj : 0 <= j < Z.of_nat (List.length l)).
  { subst j. destruct (i <? 0) eqn:Hneg.
    - apply Z.ltb_lt in Hneg. lia.
    - apply Z.ltb_ge in Hneg. lia. }
  replace ((0 <=? j) && (j <? Z.of_nat (List.length l))) with true.
  2:{ symmetry. apply andb_true_iff. split; [apply Z.leb_le|apply Z.ltb_lt]; lia. }
  destruct (l !! Z.to_nat j) as [a|] eqn:Hl; [eauto|].
  apply lookup_ge_None in Hl. lia.
Qed.

Lemma for_each_total {A S} (items : list A) (body : S -> A -> result S) s :
  (forall s x, In x items -> exists s', body s x = Ok s') ->
  exists s', for_each items body s = Ok s'.
Proof.
  revert s. induction items as [|x rest IH]; intros s Hbody; simpl; [eauto|].
  destruct (Hbody s x) as [s1 Hs1]; [now left|]. rewrite Hs1. simpl.
  apply IH. intros s2 y Hy. apply Hbody. now right.
Qed.

Lemma mask_total E text rules matches :
  finditer E rules text = Some matches ->
  exists masked, mask E text rules = Ok masked.
Proof.
  intros Hm. unfold mask. rewrite Hm.
  set (indexes := mask_indexes matches text).
  assert (Hlen : (2 <= List.length indexes)%nat).
  { subst indexes. unfold mask_indexes.
    rewrite List.length_app, List.length_app. simpl. lia. }
  destruct (for_each_total
              (Py.range 0 (Z.of_nat (List.length indexes) - 2) 2)
              (fun masked idx =>
                 let? start := getitem indexes idx in
                 let? end_ := getitem indexes (idx + 1) in
                 Ok (masked +:+ Py.slice text start end_ +:+ MASKED)) "")
    as [masked Hmasked].
  { intros s x Hx. apply range_from_bounds in Hx; [|lia].
    destruct (getitem_in_range indexes x) as [a Ha]; [lia|].
    destruct (getitem_in_range indexes (x + 1)) as [b Hb]; [lia|].
    rewrite Ha. simpl. rewrite Hb. simpl. eauto. }
  rewrite Hmasked. simpl.
  destruct (getitem_in_range indexes (-2)) as [a Ha]; [lia|].
  destruct (getitem_in_range indexes (-1)) as [b Hb]; [lia|].
  rewrite Ha. simpl. rewrite Hb. simpl. eauto.
Qed.

Lemma mask_error E text rules e :
  mask E text rules = Err e -> e = re_error /\ finditer E rules text = None.
Proof.
  intros He. destruct (finditer E rules text) as [matches|] eqn:Hm.
  - destruct (mask_total E text rules matches Hm) as [masked Hok]. congruence.
  - unfold mask in He. rewrite Hm in He. now inversion He.
Qed.

Lemma mask_if_error E rule cmd e : mask_if E rule cmd = Err e -> e = re_error.
Proof.
  unfold mask_if. destruct rule as [rules|]; [|discriminate].
  destruct (Py.truthy (Some rules)); [|discriminate].
  intros He. now apply mask_error in He.
Qed.

Lemma mask_command_error E self_rule cmd rule e :
  _mask_command E self_rule cmd rule = Err e -> e = re_error.
Proof.
  unfold _mask_command.
  destruct (mask_if E self_rule (Py.rstrip cmd)) as [cmd1|e1] eqn:H1; simpl.
  - destruct (mask_if E rule cmd1) as [cmd2|e2] eqn:H2; simpl; [discriminate|].
    intros He. inversion He; subst. now apply mask_if_error in H2.
  - intros He. inversion He; subst. now apply mask_if_error in H1.
Qed.

(** The log records of one run of [_exec_command]: never a summary; the
    wait-error record exactly when the timeout error is raised, at DEBUG
    level, with the result and the timeout the error carries. *)
Lemma exec_command_logs E self command interface stdout stderr timeout verbose
      log_mask_re kw t :
  exists o s,
    _exec_command E self command interface stdout stderr timeout verbose
      log_mask_re kw t = (o, t ++ s) /\
    List.filter is_summary s = [] /\
    List.filter is_Popen s = [] /\
    match o with
    | Ret r =>
        List.filter is_wait_error s = [] /\
        _mask_command E (self_log_mask_re self) command log_mask_re = Ok (cmd r) /\
        exit_code r <> None
    | Raise (ExecHelperTimeoutError r T) =>
        T = timeout /\
        List.filter is_wait_error s = [log DEBUG (CMD_WAIT_ERROR r timeout)]
    | _ => True
    end.
Proof.
  destruct (_mask_command E (self_log_mask_re self) command log_mask_re)
    as [cmd_for_log|e] eqn:Hmask.
  2:{ exists (Raise e), []. rewrite app_nil_r.
      split; [now apply exec_mask_error|].
      apply mask_command_error in Hmask. subst e. repeat split. }
  assert (Hsink : forall code ps,
             _mask_command E (self_log_mask_re self) command log_mask_re
             = Ok (cmd (sink E cmd_for_log code ps stdout stderr)))
    by (intros; exact Hmask).
  destruct (wait_reply E) as [code|] eqn:Hw.
  { eexists. eexists. split; [eapply exec_exited; eassumption|].
    repeat split; try apply Hsink; try discriminate; filter_trace; reflexivity. }
  destruct timeout as [T|] eqn:HT.
  2:{ eexists. eexists. split; [eapply exec_blocked; eauto|].
      repeat split; filter_trace; reflexivity. }
  assert (Ht : Some T <> None) by discriminate.
  destruct (poll_reply E (npolls t)) as [code|] eqn:Hp.
  { eexists. eexists. split; [eapply exec_late_exit; eassumption|].
    repeat split; try apply Hsink; try discriminate; filter_trace; reflexivity. }
  destruct (kill_reply E) as [n|] eqn:Hk.
  2:{ eexists. eexists. split; [eapply exec_killed; eassumption|].
      repeat split; filter_trace; reflexivity. }
  destruct (poll_reply E (S (npolls t))) as [code|] eqn:Hp2.
  - eexists. eexists. split; [eapply exec_kill_failed_exited; eassumption|].
    repeat split; try apply Hsink; try discriminate; filter_trace; reflexivity.
  - eexists. eexists. split; [eapply exec_kill_failed; eassumption|].
    repeat split; filter_trace; reflexivity.
Qed.

(** The log records of one run of [execute_async]: neither a summary nor a
    wait-error record, and no timeout error comes out of it. When masking
    raises nothing, the first two events are the log record of the command
    and the [Popen] call with the command as given. *)
Lemma execute_async_logs E self command stdin open_stdout open_stderr verbose
      log_mask_re kw t :
  exists o s,
    execute_async E self command stdin open_stdout open_stderr verbose
      log_mask_re kw t = (o, t ++ s) /\
    List.filter is_summary s = [] /\
    List.filter is_wait_error s = [] /\
    match o with
    | Raise (ExecHelperTimeoutError _ _) => False
    | _ => True
    end /\
    forall cmd_for_log,
      _mask_command E (self_log_mask_re self) command log_mask_re
      = Ok cmd_for_log ->
      exists s',
        s = log (if verbose then INFO else DEBUG) (CMD_EXEC cmd_for_log)
            :: Popen {| args := [command];
                        popen_stdout := if open_stdout then PIPE else DEVNULL;
                        popen_stderr := if open_stderr then PIPE else DEVNULL;
                        popen_stdin := PIPE;
                        shell := true;
                        cwd := kw_cwd kw;
                        env := kw_env kw;
                        universal_newlines := false |}
            :: s'.
Proof.
  destruct (_mask_command E (self_log_mask_re self) command log_mask_re)
    as [cmd_for_log|e] eqn:Hmask.
  2:{ exists (Raise e), []. rewrite app_nil_r. split.
      - unfold execute_async. now rewrite Hmask.
      - apply mask_command_error in Hmask. subst e.
        repeat split. discriminate. }
  unfold execute_async. rewrite Hmask.
  destruct stdin as [payload|].
  all: async_cases E.
  all: eexists; eexists; split; [reflexivity|].
  all: repeat split; try (destruct verbose; reflexivity).
  all: intros c Hc; inversion Hc; subst; eexists; reflexivity.
Qed.

Lemma Subprocess_call_again (rule : option str) (st : interpreter) (obj : nat) :
  _instances st !! "Subprocess" = Some obj ->
  Subprocess_call rule st = (obj, st).
Proof. intros H. unfold Subprocess_call, SingletonMeta_call. now rewrite H. Qed.

Lemma Subprocess_calls_again (rules : list (option str)) (st : interpreter)
      (obj : nat) :
  _instances st !! "Subprocess" = Some obj ->
  Subprocess_calls rules st = (replicate (List.length rules) obj, st).
Proof.
  intros H. induction rules as [|rule rest IH]; simpl; [reflexivity|].
  rewrite (Subprocess_call_again rule st obj H), IH. reflexivity.
Qed.

(** ** How [mask] walks the spans *)

Lemma append_nil_r (s : str) : s +:+ "" = s.
Proof.
  induction s as [|c s IH]; [reflexivity|].
  change (String c (s +:+ "") = String c s). now f_equal.
Qed.

Lemma append_assoc (a b c : str) : (a +:+ b) +:+ c = a +:+ (b +:+ c).
Proof.
  induction a as [|x a IH]; [reflexivity|].
  change (String x ((a +:+ b) +:+ c) = String x (a +:+ (b +:+ c))).
  now f_equal.
Qed.

Lemma redact_split text pos spans :
  redact text pos spans =
  redact_loop text pos spans
    +:+ Py.slice text (last_end pos spans) (Py.len text).
Proof.
  revert pos. induction spans as [|sp rest IH]; intros pos; simpl.
  - reflexivity.
  - rewrite IH. now rewrite !append_assoc.
Qed.

Lemma mask_indexes_flat matches text :
  mask_indexes matches text = 0 :: flat (group_spans matches) ++ [Py.len text].
Proof.
  unfold mask_indexes, flat, group_spans. simpl. do 2 f_equal.
  induction matches as [|m rest IH]; simpl; [reflexivity|].
  now rewrite flat_map_app, IH.
Qed.

Lemma getitem_at {A} (pre post : list A) (a : A) (i : Z) :
  i = Z.of_nat (List.length pre) -> getitem (pre ++ a :: post) i = Ok a.
Proof.
  intros ->. unfold getitem, Py.index.
  rewrite List.length_app. simpl.
  replace (Z.of_nat (List.length pre) <? 0) with false
    by (symmetry; apply Z.ltb_ge; lia).
  replace ((0 <=? Z.of_nat (List.length pre))
           && (Z.of_nat (List.length pre)
               <? Z.of_nat (List.length pre + S (List.length post))))
    with true
    by (symmetry; apply andb_true_iff; split;
        [apply Z.leb_le|apply Z.ltb_lt]; lia).
  rewrite Nat2Z.id. rewrite list_lookup_middle; reflexivity.
Qed.

Section Loop.

Variable text : str.

Let body (indexes : list Z) (masked : str) (idx : Z) : result str :=
  let? start := getitem indexes idx in
  let? end_ := getitem indexes (idx + 1) in
  Ok (masked +:+ Py.slice text start end_ +:+ MASKED).

Lemma loop_redact spans : forall pre pos stop fuel masked first last,
  first = Z.of_nat (List.length pre) ->
  last = first + 2 * Z.of_nat (List.length spans) ->
  (2 * List.length spans <= fuel)%nat ->
  for_each (Py.range_from fuel first last 2)
    (body (pre ++ pos :: flat spans ++ [stop])) masked
  = Ok (masked +:+ redact_loop text pos spans).
Proof.
  induction spans as [|[s e] rest IH];
    intros pre pos stop fuel masked first last Hfirst Hlast Hfuel.
  - simpl in Hlast. simpl redact_loop. rewrite append_nil_r.
    replace last with first by lia.
    destruct fuel; simpl; [reflexivity|].
    now rewrite Z.ltb_irrefl.
  - simpl List.length in Hlast, Hfuel.
    destruct fuel as [|fuel]; [lia|].
    cbn [Py.range_from].
    replace (first <? last) with true by (symmetry; apply Z.ltb_lt; lia).
    cbn [for_each]. unfold body at 1.
    cbn [flat flat_map]. simpl app.
    rewrite getitem_at by assumption. simpl result_bind.
    replace (pre ++ pos :: s :: e :: flat_map (fun sp => [sp.1; sp.2]) rest ++ [stop])
      with ((pre ++ [pos]) ++ s :: e :: flat rest ++ [stop])
      by (now rewrite <- app_assoc).
    rewrite getitem_at by (rewrite List.length_app; simpl; lia).
    simpl result_bind.
    replace ((pre ++ [pos]) ++ s :: e :: flat rest ++ [stop])
      with ((pre ++ [pos; s]) ++ e :: flat rest ++ [stop])
      by (now rewrite <- !app_assoc).
    fold (body ((pre ++ [pos; s]) ++ e :: flat rest ++ [stop])).
    rewrite (IH (pre ++ [pos; s]) e stop fuel
                (masked +:+ Py.slice text pos s +:+ MASKED) (first + 2) last).
    + simpl redact_loop. now rewrite !append_assoc.
    + rewrite List.length_app. simpl. lia.
    + lia.
    + lia.
Qed.

End Loop.

Lemma getitem_from_end {A} (pre post : list A) (a : A) (i : Z) :
  i = - Z.of_nat (S (List.length post)) -> getitem (pre ++ a :: post) i = Ok a.
Proof.
  intros ->. unfold getitem, Py.index.
  rewrite List.length_app. cbn [List.length].
  replace (- Z.of_nat (S (List.length post)) <? 0) with true
    by (symmetry; apply Z.ltb_lt; lia).
  replace (- Z.of_nat (S (List.length post))
           + Z.of_nat (List.length pre + S (List.length post)))
    with (Z.of_nat (List.length pre)) by lia.
  replace ((0 <=? Z.of_nat (List.length pre))
           && (Z.of_nat (List.length pre)
               <? Z.of_nat (List.length pre + S (List.length post))))
    with true
    by (symmetry; apply andb_true_iff; split;
        [apply Z.leb_le|apply Z.ltb_lt]; lia).
  rewrite Nat2Z.id. rewrite list_lookup_middle; reflexivity.
Qed.

Lemma flat_ends_with_last_end spans : forall pos,
  exists pre, pos :: flat spans = pre ++ [last_end pos spans].
Proof.
  induction spans as [|[s e] rest IH]; intros pos.
  - exists []. reflexivity.
  - destruct (IH e) as [pre Hpre]. exists (pos :: s :: pre).
    cbn [flat flat_map last_end]. simpl. f_equal. f_equal. exact Hpre.
Qed.

(** The loop of [mask] over [indexes] is the walk over the spans. *)
Lemma mask_redact E text rules matches :
  finditer E rules text = Some matches ->
  mask E text rules = Ok (redact text 0 (group_spans matches)).
Proof.
  intros Hm. unfold mask. rewrite Hm.
  rewrite mask_indexes_flat.
  set (spans := group_spans matches).
  replace (Z.of_nat (List.length (0 :: flat spans ++ [Py.len text])) - 2)
    with (2 * Z.of_nat (List.length spans)).
  2:{ cbn [List.length]. rewrite List.length_app. simpl.
      assert (List.length (flat spans) = (2 * List.length spans)%nat).
      { unfold flat. induction spans as [|sp rest IH]; simpl; [reflexivity|].
        rewrite IH. lia. }
      lia. }
  unfold Py.range.
  rewrite (loop_redact text spans [] 0 (Py.len text) _ "" 0
             (2 * Z.of_nat (List.length spans))) by (simpl; lia).
  simpl result_bind.
  destruct (flat_ends_with_last_end spans 0) as [pre Hpre].
  replace (0 :: flat spans ++ [Py.len text])
    with (pre ++ last_end 0 spans :: [Py.len text])
    by (change (0 :: flat spans ++ [Py.len text])
          with ((0 :: flat spans) ++ [Py.len text]);
        rewrite Hpre; now rewrite <- app_assoc).
  rewrite getitem_from_end by reflexivity. simpl result_bind.
  replace (pre ++ last_end 0 spans :: [Py.len text])
    with ((pre ++ [last_end 0 spans]) ++ Py.len text :: [])
    by (now rewrite <- app_assoc).
  rewrite getitem_from_end by reflexivity. simpl result_bind.
  now rewrite redact_split.
Qed.

(** A rule without groups leaves the text as it is. *)
Lemma substring_all (s : str) : String.substring 0 (String.length s) s = s.
Proof. induction s as [|x s IH]; [reflexivity|]. simpl. now rewrite IH. Qed.

Lemma slice_bound_inside n i : 0 <= i <= n -> Py.slice_bound n i = i.
Proof.
  intros Hi. unfold Py.slice_bound.
  destruct (i <? 0) eqn:Hneg.
  - apply Z.ltb_lt in Hneg. lia.
  - lia.
Qed.

Lemma substring_empty (s : str) : forall n, String.substring n 0 s = "".
Proof.
  induction s as [|x s IH]; intros [|n]; simpl; try reflexivity. apply IH.
Qed.

(** Inside the text a slice is the substring between its bounds. *)
Lemma slice_inside text a b :
  0 <= a <= b -> b <= Py.len text ->
  Py.slice text a b = String.substring (Z.to_nat a) (Z.to_nat (b - a)) text.
Proof.
  intros Ha Hb. unfold Py.slice.
  rewrite !slice_bound_inside by lia.
  destruct (a <? b) eqn:Hlt; [reflexivity|].
  apply Z.ltb_ge in Hlt. replace (b - a) with 0 by lia. simpl.
  now rewrite substring_empty.
Qed.

(** A rule without groups leaves the text as it is. *)
Lemma slice_all text : Py.slice text 0 (Py.len text) = text.
Proof.
  rewrite slice_inside by (unfold Py.len; lia).
  rewrite Z.sub_0_r. unfold Py.len. rewrite Nat2Z.id. apply substring_all.
Qed.

Lemma mask_without_groups E text rules matches :
  finditer E rules text = Some matches ->
  Forall (fun m => m = []) matches ->
  mask E text rules = Ok text.
Proof.
  intros Hm Hgroups. rewrite (mask_redact E text rules matches Hm).
  replace (group_spans matches) with (@nil (Z * Z)).
  - simpl. now rewrite slice_all.
  - unfold group_spans. clear Hm.
    induction Hgroups as [|m rest Hm' _ IH]; [reflexivity|].
    subst m. simpl. exact IH.
Qed.

(** Splitting a substring in two. *)
Lemma substring_split (s : str) : forall a n m,
  String.substring a n s +:+ String.substring (a + n) m s
  = String.substring a (n + m) s.
Proof.
  induction s as [|x s IH]; intros a n m.
  - destruct a, n, m; reflexivity.
  - destruct a as [|a].
    + destruct n as [|n]; [reflexivity|].
      simpl. change (String x (String.substring 0 n s +:+ String.substring n m s)
                     = String x (String.substring 0 (n + m) s)).
      f_equal. apply (IH O n m).
    + simpl. apply IH.
Qed.

Lemma slice_join text a b c :
  0 <= a <= b -> b <= c -> c <= Py.len text ->
  Py.slice text a b +:+ Py.slice text b c = Py.slice text a c.
Proof.
  intros Ha Hb Hc. rewrite !slice_inside by lia.
  replace (Z.to_nat b) with (Z.to_nat a + Z.to_nat (b - a))%nat by lia.
  rewrite substring_split. f_equal. lia.
Qed.

Lemma ascending_le spans : forall pos stop,
  ascending pos spans stop -> pos <= stop.
Proof.
  induction spans as [|[s e] rest IH]; intros pos stop Hasc; simpl in Hasc.
  - exact Hasc.
  - destruct Hasc as (Hs & He & Hrest). apply IH in Hrest. lia.
Qed.

(** On spans that lie in the text one after the other, the walk with the
    spans left in place gives the text back: [redact] differs from the text
    by the markers that stand for the spans, and by nothing else. *)
Lemma restore_ascending text spans : forall pos,
  0 <= pos -> ascending pos spans (Py.len text) ->
  restore text pos spans = Py.slice text pos (Py.len text).
Proof.
  induction spans as [|[s e] rest IH]; intros pos Hpos Hasc.
  - reflexivity.
  - simpl in Hasc. destruct Hasc as (Hs & He & Hrest). simpl.
    assert (Hend : e <= Py.len text) by (now apply ascending_le in Hrest).
    rewrite IH by (assumption || lia).
    rewrite slice_join by (assumption || lia).
    rewrite slice_join by (assumption || lia).
    reflexivity.
Qed.

(** On such spans [mask] gives the text with each span replaced by the
    marker, and all the rest in place. *)
Theorem mask_on_ascending_spans E text rules matches :
  finditer E rules text = Some matches ->
  ascending 0 (group_spans matches) (Py.len text) ->
  mask E text rules = Ok (redact text 0 (group_spans matches)) /\
  restore text 0 (group_spans matches) = text.
Proof.
  intros Hm Hasc. split.
  - now apply mask_redact.
  - rewrite restore_ascending by (assumption || lia). apply slice_all.
Qed.

(** ** The scenarios of the specification, run on the samples *)

(** [printf hi] under a bound of five seconds: exit code 0, stdout [hi]. *)
Example scenario_printf :
  (execute Samples.E_printf Samples.plain "printf hi" false (Some 5)
     Samples.no_kwargs []).1
  = Ret {| cmd := "printf hi"; exit_code := Some 0;
           stdout := [Byte.x68; Byte.x69]; stderr := [] |}.
Proof. reflexivity. Qed.

(** [sleep 10] under a bound of one second: the timeout error, with an
    empty partial result. *)
Example scenario_sleep :
  (execute Samples.E_sleep Samples.plain "sleep 10" false (Some 1)
     Samples.no_kwargs []).1
  = Raise (ExecHelperTimeoutError
             {| cmd := "sleep 10"; exit_code := None;
                stdout := []; stderr := [] |}
             (Some 1)).
Proof. reflexivity. Qed.

(** A rule that captures the password: the log shows the marker, the
    process gets the password. *)
Example scenario_password :
  let command := "login --password=hunter2 --quiet" in
  let rule := {| kw_stdin := None; kw_open_stdout := None;
                 kw_open_stderr := None;
                 kw_log_mask_re := Some "--password=(\S+)";
                 kw_extra := Samples.no_extra |} in
  List.filter (fun e => is_log e || is_Popen e)
    (execute Samples.E_quiet Samples.plain command false (Some 5) rule []).2
  = [log DEBUG (CMD_EXEC "login --password=<*masked*> --quiet");
     Popen (started_with (Samples.child command));
     log DEBUG (Command_exit_code "login --password=<*masked*> --quiet"
                  (Some 0))].
Proof. reflexivity. Qed.

(** * The claims *)

(** ** C1 *)

(** C1, as stated, fails: in [E_kill_denied] the bound runs out, the kill
    is tried and refused, no exit code is ever obtained, and the chunk [a]
    has been read; yet [_exec_command] raises the [OSError] of the kill and
    not a timeout failure, and no ExecResult reaches the caller. *)
Lemma C1_counterexample :
  let E := Samples.E_kill_denied in
  let run :=
    _exec_command E Samples.plain "sleep 10" (Samples.child "sleep 10")
      (Some (pipe STDOUT)) (Some (pipe STDERR)) (Some 1) false None
      Samples.no_extra [] in
  In kill run.2 /\
  In (read_chunk STDOUT [Byte.x61] false) run.2 /\
  wait_reply E = None /\ (forall n, poll_reply E n = None) /\
  run.1 = Raise (OSError 1) /\
  carried run.1 = None /\
  ~ (exists r, run.1 = Raise (ExecHelperTimeoutError r (Some 1))).
Proof.
  cbv zeta. repeat split; try (vm_compute; tauto).
  intros [r Hr]. vm_compute in Hr. discriminate Hr.
Qed.

(** C1, amended: the ExecResult holds everything the two readers have read
    up to the way out, on every way out that hands it over. With an exit
    code (from [wait], or from the [poll] after the bound ran out) it is
    returned; when the kill goes through, it is raised inside
    [ExecHelperTimeoutError] together with the requested timeout; when the
    kill raises [OSError] and [poll] gives an exit code, it is returned;
    when the kill raises [OSError] and [poll] gives none, that [OSError]
    goes to the caller, with no ExecResult. (A wait without a bound for a
    process that never exits does not come back at all.) *)
Theorem C1_result_on_each_way_out
  (E : environment) (self : Subprocess) (command : str)
  (interface : Popen_obj) (stdout stderr : option IO) (timeout : option Z)
  (verbose : bool) (log_mask_re : option str) (kw : extra)
  (cmd_for_log : str) (t : trace) :
  _mask_command E (self_log_mask_re self) command log_mask_re = Ok cmd_for_log ->
  (wait_reply E = None -> timeout <> None) ->
  (_exec_command E self command interface stdout stderr timeout verbose
     log_mask_re kw t).1 =
  match
    match wait_reply E with
    | Some code => Some code
    | None => poll_reply E (npolls t)
    end
  with
  | Some code =>
      Ret (sink E cmd_for_log (Some code) [during_wait; during_join_1]
             stdout stderr)
  | None =>
      match kill_reply E with
      | None =>
          Raise (ExecHelperTimeoutError
                   (sink E cmd_for_log None
                      [during_wait; during_join_1; during_join_5]
                      stdout stderr)
                   timeout)
      | Some n =>
          match poll_reply E (S (npolls t)) with
          | Some code =>
              Ret (sink E cmd_for_log (Some code)
                     [during_wait; during_join_1] stdout stderr)
          | None => Raise (OSError n)
          end
      end
  end.
Proof.
  intros Hmask Hbound.
  destruct (wait_reply E) as [code|] eqn:Hw.
  - erewrite exec_exited; [reflexivity | eassumption ..].
  - specialize (Hbound eq_refl).
    destruct (poll_reply E (npolls t)) as [code|] eqn:Hp.
    + erewrite exec_late_exit; [reflexivity | eassumption ..].
    + destruct (kill_reply E) as [n|] eqn:Hk.
      * destruct (poll_reply E (S (npolls t))) as [code|] eqn:Hp2.
        -- erewrite exec_kill_failed_exited; [reflexivity | eassumption ..].
        -- erewrite exec_kill_failed; [reflexivity | eassumption ..].
      * erewrite exec_killed; [reflexivity | eassumption ..].
Qed.

Lemma C1_result_on_each_way_out_witness :
  (_exec_command Samples.E_sleep Samples.plain "sleep 10"
     (Samples.child "sleep 10") (Some (pipe STDOUT)) (Some (pipe STDERR))
     (Some 1) false None Samples.no_extra []).1 =
  Raise (ExecHelperTimeoutError
           (sink Samples.E_sleep "sleep 10" None
              [during_wait; during_join_1; during_join_5]
              (Some (pipe STDOUT)) (Some (pipe STDERR)))
           (Some 1)).
Proof.
  apply (C1_result_on_each_way_out Samples.E_sleep Samples.plain "sleep 10"
           (Samples.child "sleep 10") (Some (pipe STDOUT)) (Some (pipe STDERR))
           (Some 1) false None Samples.no_extra "sleep 10" []).
  - reflexivity.
  - discriminate.
Defined.

(** ** C2 *)

(** C2: when the bounded wait runs out, [poll] is asked exactly once, and
    if it gives an exit code the execution is a success: the ExecResult
    with that late exit code is returned, the process is not killed and no
    timeout failure is raised or logged. *)
Theorem C2_late_exit_is_success
  (E : environment) (self : Subprocess) (command : str)
  (interface : Popen_obj) (stdout stderr : option IO) (timeout : option Z)
  (verbose : bool) (log_mask_re : option str) (kw : extra)
  (cmd_for_log : str) (t : trace) (code : Z) :
  _mask_command E (self_log_mask_re self) command log_mask_re = Ok cmd_for_log ->
  wait_reply E = None ->
  timeout <> None ->
  poll_reply E (npolls t) = Some code ->
  exists (r : ExecResult) (s : trace),
    _exec_command E self command interface stdout stderr timeout verbose
      log_mask_re kw t = (Ret r, t ++ s) /\
    exit_code r = Some code /\
    r = sink E cmd_for_log (Some code) [during_wait; during_join_1]
          stdout stderr /\
    List.filter is_poll s = [poll] /\
    List.filter is_kill s = [] /\
    List.filter is_wait_error s = [].
Proof.
  intros Hmask Hw Ht Hp.
  eexists. eexists. split.
  - eapply exec_late_exit; eassumption.
  - repeat split; filter_trace; reflexivity.
Qed.

Lemma C2_late_exit_is_success_witness :
  exists (r : ExecResult) (s : trace),
    _exec_command Samples.E_late Samples.plain "true" (Samples.child "true")
      (Some (pipe STDOUT)) (Some (pipe STDERR)) (Some 1) false None
      Samples.no_extra [] = (Ret r, [] ++ s) /\
    exit_code r = Some 0 /\
    r = sink Samples.E_late "true" (Some 0) [during_wait; during_join_1]
          (Some (pipe STDOUT)) (Some (pipe STDERR)) /\
    List.filter is_poll s = [poll] /\
    List.filter is_kill s = [] /\
    List.filter is_wait_error s = [].
Proof.
  apply (C2_late_exit_is_success Samples.E_late Samples.plain "true"
           (Samples.child "true") (Some (pipe STDOUT)) (Some (pipe STDERR))
           (Some 1) false None Samples.no_extra "true" [] 0).
  - reflexivity.
  - reflexivity.
  - discriminate.
  - reflexivity.
Defined.

(** ** C3 *)

(** C3 does not hold on the code. The rule [(a)|(b)] has two groups; on
    [xbyz] it matches [b] with its second group, the first takes no part
    and has the span (-1, -1). The claim gives [x<*masked*>yz]; [mask]
    gives the text below: the matched [b] is still there, [y] is doubled
    and there are two markers. *)
Theorem C3_mask_keeps_a_matched_group :
  finditer Samples.E_quiet "(a)|(b)" "xbyz" = Some [[(-1, -1); (1, 2)]] /\
  mask Samples.E_quiet "xbyz" "(a)|(b)" = Ok "xby<*masked*><*masked*>yz".
Proof. split; reflexivity. Qed.

(** ** C4 *)

(** C4: when the kill raises [OSError] and the [poll] that follows gives an
    exit code, [_exec_command] returns the ExecResult with that exit code
    (after a warning); when that [poll] gives none, the [OSError] of the
    kill goes to the caller. *)
Theorem C4_kill_failure
  (E : environment) (self : Subprocess) (command : str)
  (interface : Popen_obj) (stdout stderr : option IO) (timeout : option Z)
  (verbose : bool) (log_mask_re : option str) (kw : extra)
  (cmd_for_log : str) (t : trace) (n : Z) :
  _mask_command E (self_log_mask_re self) command log_mask_re = Ok cmd_for_log ->
  wait_reply E = None ->
  timeout <> None ->
  poll_reply E (npolls t) = None ->
  kill_reply E = Some n ->
  let run :=
    _exec_command E self command interface stdout stderr timeout verbose
      log_mask_re kw t in
  match poll_reply E (S (npolls t)) with
  | Some code =>
      exists r, run.1 = Ret r /\ exit_code r = Some code /\
                cmd r = cmd_for_log /\
                exec_result.stdout r =
                  captured E [during_wait; during_join_1] stdout /\
                exec_result.stderr r =
                  captured E [during_wait; during_join_1] stderr
  | None => run.1 = Raise (OSError n)
  end.
Proof.
  intros Hmask Hw Ht Hp Hk run. subst run.
  destruct (poll_reply E (S (npolls t))) as [code|] eqn:Hp2.
  - erewrite exec_kill_failed_exited by eassumption.
    eexists. repeat split.
  - erewrite exec_kill_failed by eassumption. reflexivity.
Qed.

Lemma C4_kill_failure_witness :
  exists r,
    (_exec_command Samples.E_kill_race Samples.plain "true"
       (Samples.child "true") (Some (pipe STDOUT)) (Some (pipe STDERR))
       (Some 1) false None Samples.no_extra []).1 = Ret r /\
    exit_code r = Some 0 /\ cmd r = "true" /\
    exec_result.stdout r =
      captured Samples.E_kill_race [during_wait; during_join_1]
        (Some (pipe STDOUT)) /\
    exec_result.stderr r =
      captured Samples.E_kill_race [during_wait; during_join_1]
        (Some (pipe STDERR)).
Proof.
  apply (C4_kill_failure Samples.E_kill_race Samples.plain "true"
           (Samples.child "true") (Some (pipe STDOUT)) (Some (pipe STDERR))
           (Some 1) false None Samples.no_extra "true" [] 3).
  - reflexivity.
  - reflexivity.
  - discriminate.
  - reflexivity.
  - reflexivity.
Defined.

(** ** C5 *)

(** C5: whatever the two masking rules are (that of the instance and that
    of the call), as long as masking itself raises nothing,
    [execute_async] makes the same calls with the same arguments and ends
    the same way: only the log record of the command differs. The one
    [Popen] call gets the command as it was given, unmasked. *)
Theorem C5_masking_never_reaches_the_process
  (E : environment) (self1 self2 : Subprocess) (rule1 rule2 : option str)
  (command : str) (stdin : option stdin_data)
  (open_stdout open_stderr verbose : bool) (kw : extra)
  (cmd1 cmd2 : str) (t : trace) :
  _mask_command E (self_log_mask_re self1) command rule1 = Ok cmd1 ->
  _mask_command E (self_log_mask_re self2) command rule2 = Ok cmd2 ->
  exists o s1 s2,
    execute_async E self1 command stdin open_stdout open_stderr verbose
      rule1 kw t = (o, t ++ s1) /\
    execute_async E self2 command stdin open_stdout open_stderr verbose
      rule2 kw t = (o, t ++ s2) /\
    List.filter not_log s1 = List.filter not_log s2 /\
    List.filter is_log s1 =
      log (if verbose then INFO else DEBUG) (CMD_EXEC cmd1)
      :: List.filter is_warning s1 /\
    List.filter is_Popen s1 =
      [Popen {| args := [command];
                popen_stdout := if open_stdout then PIPE else DEVNULL;
                popen_stderr := if open_stderr then PIPE else DEVNULL;
                popen_stdin := PIPE;
                shell := true;
                cwd := kw_cwd kw;
                env := kw_env kw;
                universal_newlines := false |}].
Proof.
  intros H1 H2.
  unfold execute_async. rewrite H1, H2.
  destruct stdin as [payload|].
  all: async_cases E.
  all: eexists; eexists; eexists; split; [reflexivity|]; split; [reflexivity|].
  all: destruct verbose; repeat split; reflexivity.
Qed.

Lemma C5_masking_never_reaches_the_process_witness :
  let command := "login --password=hunter2 --quiet" in
  exists o s1 s2,
    execute_async Samples.E_quiet Samples.plain command None true true false
      (Some "--password=(\S+)") Samples.no_extra [] = (o, [] ++ s1) /\
    execute_async Samples.E_quiet Samples.plain command None true true false
      None Samples.no_extra [] = (o, [] ++ s2) /\
    List.filter not_log s1 = List.filter not_log s2 /\
    List.filter is_log s1 =
      log (if false then INFO else DEBUG)
          (CMD_EXEC "login --password=<*masked*> --quiet")
      :: List.filter is_warning s1 /\
    List.filter is_Popen s1 =
      [Popen {| args := [command];
                popen_stdout := if true then PIPE else DEVNULL;
                popen_stderr := if true then PIPE else DEVNULL;
                popen_stdin := PIPE;
                shell := true;
                cwd := kw_cwd Samples.no_extra;
                env := kw_env Samples.no_extra;
                universal_newlines := false |}].
Proof.
  apply (C5_masking_never_reaches_the_process Samples.E_quiet Samples.plain
           Samples.plain (Some "--password=(\S+)") None
           "login --password=hunter2 --quiet" None true true false
           Samples.no_extra "login --password=<*masked*> --quiet"
           "login --password=hunter2 --quiet" []).
  - reflexivity.
  - reflexivity.
Defined.

(** ** C6 *)

(** C6: with a stdin payload, when the write and the close each succeed or
    fail with an error of the broken-pipe family (EINVAL, EPIPE,
    ESHUTDOWN), [execute_async] returns the process with its two pipes, logs
    at most one warning and kills nothing; when the write fails with any
    other error, the next call is the kill of the process and an [OSError]
    is raised instead of a handle: the error of the write, unless the kill
    call itself raised, whose error then comes out in its place. *)
Theorem C6_stdin_failures
  (E : environment) (self : Subprocess) (command : str) (payload : stdin_data)
  (open_stdout open_stderr verbose : bool) (log_mask_re : option str)
  (kw : extra) (cmd_for_log : str) (t : trace) :
  _mask_command E (self_log_mask_re self) command log_mask_re = Ok cmd_for_log ->
  Popen_reply E = None ->
  let run :=
    execute_async E self command (Some payload) open_stdout open_stderr
      verbose log_mask_re kw t in
  (tolerated (write_reply E) = true -> tolerated (close_reply E) = true ->
   exists process s,
     run = (Ret (process, tt, Popen_stderr process, Popen_stdout process), t ++ s) /\
     (List.length (List.filter is_warning s) <= 1)%nat /\
     List.filter is_kill s = []) /\
  (forall n, write_reply E = Some n -> broken_pipe n = false ->
   exists s,
     run = (Raise (OSError (default n (kill_reply E))),
            t ++ s ++ [stdin_write (to_bytes payload); kill]) /\
     List.filter is_kill s = []).
Proof.
  intros Hmask Hspawn run. subst run. split.
  - intros Hw Hc. unfold tolerated, broken_pipe in *.
    async_cases E.
    all: try (simpl in *; congruence).
    all: eexists; eexists; split; [reflexivity |].
    all: destruct verbose; simpl; auto.
  - intros n Hw Hn. unfold broken_pipe in Hn.
    async_cases E.
    all: try (simpl in *; congruence).
    all: eexists; split;
      [ instantiate (1 := [_; _]); simpl; reflexivity | reflexivity ].
Qed.

Lemma C6_stdin_failures_witness :
  (exists process s,
     execute_async Samples.E_broken_pipe Samples.plain "true"
       (Some (stdin_str "hello")) true true false None Samples.no_extra []
     = (Ret (process, tt, Popen_stderr process, Popen_stdout process), [] ++ s) /\
     (List.length (List.filter is_warning s) <= 1)%nat /\
     List.filter is_kill s = []) /\
  (exists s,
     execute_async Samples.E_write_fails Samples.plain "true"
       (Some (stdin_str "hello")) true true false None Samples.no_extra []
     = (Raise (OSError (default 5 (kill_reply Samples.E_write_fails))),
        [] ++ s ++ [stdin_write (to_bytes (stdin_str "hello")); kill]) /\
     List.filter is_kill s = []).
Proof.
  split.
  - apply (C6_stdin_failures Samples.E_broken_pipe Samples.plain "true"
             (stdin_str "hello") true true false None Samples.no_extra
             "true" []); reflexivity.
  - apply (C6_stdin_failures Samples.E_write_fails Samples.plain "true"
             (stdin_str "hello") true true false None Samples.no_extra
             "true" []); reflexivity.
Defined.

(** ** C7 *)

(** C7, as stated, fails: in [E_sleep], with [verbose] set, the bound runs
    out and the kill goes through; [execute] raises the timeout error and
    its trace holds no summary record: the only record after that of the
    launch is the wait-error record of [_exec_command], at DEBUG level. *)
Lemma C7_counterexample :
  let run :=
    execute Samples.E_sleep Samples.plain "sleep 10" true (Some 1)
      Samples.no_kwargs [] in
  let partial :=
    sink Samples.E_sleep "sleep 10" None
      [during_wait; during_join_1; during_join_5]
      (Some (pipe STDOUT)) (Some (pipe STDERR)) in
  run.1 = Raise (ExecHelperTimeoutError partial (Some 1)) /\
  List.filter is_summary run.2 = [] /\
  List.filter is_log run.2 =
    [log INFO (CMD_EXEC "sleep 10");
     log DEBUG (CMD_WAIT_ERROR partial (Some 1))].
Proof. cbv zeta. repeat split. Qed.

(** C7, amended: when [execute] returns a result, its trace holds exactly
    one summary record, with the masked command and the exit code of the
    result, at INFO level when [verbose] is set and at DEBUG level
    otherwise. When [execute] raises the timeout error, its trace holds no
    summary record; it holds exactly one wait-error record, written by
    [_exec_command] at DEBUG level whatever [verbose] is, with the result
    and the timeout the error carries. On every other way out there is no
    summary record either. *)
Theorem C7_summary_only_on_return
  (E : environment) (self : Subprocess) (command : str) (verbose : bool)
  (timeout : option Z) (kw : kwargs) (t : trace) :
  exists o s,
    execute E self command verbose timeout kw t = (o, t ++ s) /\
    match o with
    | Ret r =>
        List.filter is_summary s =
          [log (if verbose then INFO else DEBUG)
               (Command_exit_code (cmd r) (exit_code r))] /\
        _mask_command E (self_log_mask_re self) command (kw_log_mask_re kw)
          = Ok (cmd r) /\
        exit_code r <> None /\
        List.filter is_wait_error s = []
    | Raise (ExecHelperTimeoutError r T) =>
        List.filter is_summary s = [] /\
        List.filter is_wait_error s = [log DEBUG (CMD_WAIT_ERROR r timeout)] /\
        T = timeout
    | _ => List.filter is_summary s = []
    end.
Proof.
  unfold execute, with_lock. simpl.
  destruct (execute_async_logs E self command (kw_stdin kw)
              (default true (kw_open_stdout kw))
              (default true (kw_open_stderr kw)) verbose (kw_log_mask_re kw)
              (kw_extra kw) (t ++ [lock_acquire]))
    as (o1 & s1 & Hrun1 & Hsum1 & Hwe1 & Ho1 & _).
  unfold bind at 1. rewrite Hrun1.
  destruct o1 as [[[[iface u] stderr] stdout]|e|].
  2:{ eexists. eexists. split.
      - rewrite <- !app_assoc. reflexivity.
      - destruct e; simpl; filter_trace; now rewrite Hsum1. }
  2:{ eexists. eexists. split.
      - rewrite <- !app_assoc. reflexivity.
      - simpl. exact Hsum1. }
  destruct (exec_command_logs E self command iface stdout stderr timeout
              verbose (kw_log_mask_re kw) (kw_extra kw)
              ((t ++ [lock_acquire]) ++ s1))
    as (o2 & s2 & Hrun2 & Hsum2 & _ & Ho2).
  unfold bind at 1. rewrite Hrun2.
  destruct o2 as [r|e|].
  - eexists. eexists. split.
    + unfold bind, emit, ret. rewrite <- !app_assoc. reflexivity.
    + destruct Ho2 as (Hwe2 & Hcmd & Hcode).
      repeat split; try assumption.
      * simpl. filter_trace. rewrite Hsum1, Hsum2. reflexivity.
      * simpl. filter_trace. rewrite Hwe1, Hwe2. now destruct verbose.
  - eexists. eexists. split.
    + rewrite <- !app_assoc. reflexivity.
    + destruct e; try (simpl; filter_trace; now rewrite Hsum1, Hsum2).
      destruct Ho2 as (HT & Hwe2). repeat split; try assumption.
      * simpl. filter_trace. now rewrite Hsum1, Hsum2.
      * simpl. filter_trace. now rewrite Hwe1, Hwe2.
  - eexists. eexists. split.
    + rewrite <- !app_assoc. reflexivity.
    + simpl. filter_trace. now rewrite Hsum1, Hsum2.
Qed.

(** ** C8 *)

(** C8, as stated, fails: the empty command is not rejected. In [E_quiet],
    [execute] starts a process whose argument list is the empty command and
    returns its result. *)
Lemma C8_counterexample :
  let run :=
    execute Samples.E_quiet Samples.plain "" false (Some 5)
      Samples.no_kwargs [] in
  Py.rstrip "" = "" /\
  run.1 = Ret {| cmd := ""; exit_code := Some 0; stdout := []; stderr := [] |} /\
  List.filter is_Popen run.2 =
    [Popen {| args := [""]; popen_stdout := PIPE; popen_stderr := PIPE;
              popen_stdin := PIPE; shell := true; cwd := None; env := None;
              universal_newlines := false |}].
Proof. cbv zeta. repeat split. Qed.

(** C8, amended: [execute] does not look at the command before the launch.
    For every command, also one that is empty after trimming, and as long
    as masking raises nothing, the first thing [execute] does under its
    lock, after the log record of the launch, is the [Popen] call with the
    command as given. *)
Theorem C8_command_is_not_validated
  (E : environment) (self : Subprocess) (command : str) (verbose : bool)
  (timeout : option Z) (kw : kwargs) (cmd_for_log : str) (t : trace) :
  _mask_command E (self_log_mask_re self) command (kw_log_mask_re kw)
    = Ok cmd_for_log ->
  exists o s,
    execute E self command verbose timeout kw t =
    (o, t ++ lock_acquire
          :: log (if verbose then INFO else DEBUG) (CMD_EXEC cmd_for_log)
          :: Popen {| args := [command];
                      popen_stdout :=
                        if default true (kw_open_stdout kw) then PIPE else DEVNULL;
                      popen_stderr :=
                        if default true (kw_open_stderr kw) then PIPE else DEVNULL;
                      popen_stdin := PIPE;
                      shell := true;
                      cwd := kw_cwd (kw_extra kw);
                      env := kw_env (kw_extra kw);
                      universal_newlines := false |}
          :: s).
Proof.
  intros Hmask. unfold execute, with_lock. simpl.
  destruct (execute_async_logs E self command (kw_stdin kw)
              (default true (kw_open_stdout kw))
              (default true (kw_open_stderr kw)) verbose (kw_log_mask_re kw)
              (kw_extra kw) (t ++ [lock_acquire]))
    as (o1 & s1 & Hrun1 & _ & _ & _ & Hlaunch).
  destruct (Hlaunch cmd_for_log Hmask) as [s' ->].
  unfold bind at 1. rewrite Hrun1.
  destruct o1 as [[[[iface u] stderr] stdout]|e|].
  2,3: eexists; eexists; rewrite <- ?app_assoc; simpl; reflexivity.
  match goal with
  | |- context [bind (_exec_command E self command iface stdout stderr timeout
                        verbose ?m ?k) _ ?t0] =>
      destruct (exec_command_logs E self command iface stdout stderr timeout
                  verbose m k t0) as (o2 & s2 & Hrun2 & _)
  end.
  unfold bind at 1. rewrite Hrun2.
  destruct o2 as [r|e|]; unfold bind, emit, ret;
    eexists; eexists; rewrite <- ?app_assoc; simpl;
    rewrite <- ?app_assoc; simpl; reflexivity.
Qed.

Lemma C8_command_is_not_validated_witness :
  Py.rstrip "  " = "" /\
  exists o s,
    execute Samples.E_quiet Samples.plain "  " false (Some 5)
      Samples.no_kwargs [] =
    (o, [] ++ lock_acquire
          :: log (if false then INFO else DEBUG) (CMD_EXEC "")
          :: Popen {| args := ["  "];
                      popen_stdout :=
                        if default true (kw_open_stdout Samples.no_kwargs)
                        then PIPE else DEVNULL;
                      popen_stderr :=
                        if default true (kw_open_stderr Samples.no_kwargs)
                        then PIPE else DEVNULL;
                      popen_stdin := PIPE;
                      shell := true;
                      cwd := kw_cwd (kw_extra Samples.no_kwargs);
                      env := kw_env (kw_extra Samples.no_kwargs);
                      universal_newlines := false |}
          :: s).
Proof.
  split; [reflexivity|].
  apply (C8_command_is_not_validated Samples.E_quiet Samples.plain "  " false
           (Some 5) Samples.no_kwargs "" []).
  reflexivity.
Defined.

(** ** C9 *)

(** C9: when the kill raises no error, [_exec_command] raises
    [ExecHelperTimeoutError] whatever the process has done since: nothing
    after the kill asks [poll], so the exit code of the ExecResult inside
    the error is absent, for every answer [poll] would have given. *)
Theorem C9_timeout_error_after_kill
  (E : environment) (self : Subprocess) (command : str)
  (interface : Popen_obj) (stdout stderr : option IO) (timeout : option Z)
  (verbose : bool) (log_mask_re : option str) (kw : extra)
  (cmd_for_log : str) (t : trace) :
  _mask_command E (self_log_mask_re self) command log_mask_re = Ok cmd_for_log ->
  wait_reply E = None ->
  timeout <> None ->
  poll_reply E (npolls t) = None ->
  kill_reply E = None ->
  exists (r : ExecResult) (before after : trace),
    _exec_command E self command interface stdout stderr timeout verbose
      log_mask_re kw t
    = (Raise (ExecHelperTimeoutError r timeout), t ++ before ++ kill :: after) /\
    exit_code r = None /\
    List.filter is_kill before = [] /\
    List.filter is_poll after = [].
Proof.
  intros Hmask Hw Ht Hp Hk.
  exists (sink E cmd_for_log None [during_wait; during_join_1; during_join_5]
            stdout stderr).
  exists ([submit STDOUT; submit STDERR; wait timeout]
            ++ phase_events E during_wait stdout stderr verbose
            ++ [poll; futures_wait 1]
            ++ phase_events E during_join_1 stdout stderr verbose).
  eexists. split.
  - erewrite exec_killed by eassumption. f_equal.
    rewrite <- ?app_assoc. simpl. rewrite <- ?app_assoc. simpl. reflexivity.
  - repeat split; filter_trace; reflexivity.
Qed.

Lemma C9_timeout_error_after_kill_witness :
  exists (r : ExecResult) (before after : trace),
    _exec_command Samples.E_killed Samples.plain "sleep 10"
      (Samples.child "sleep 10") (Some (pipe STDOUT)) (Some (pipe STDERR))
      (Some 1) false None Samples.no_extra []
    = (Raise (ExecHelperTimeoutError r (Some 1)), [] ++ before ++ kill :: after) /\
    exit_code r = None /\
    List.filter is_kill before = [] /\
    List.filter is_poll after = [].
Proof.
  apply (C9_timeout_error_after_kill Samples.E_killed Samples.plain "sleep 10"
           (Samples.child "sleep 10") (Some (pipe STDOUT)) (Some (pipe STDERR))
           (Some 1) false None Samples.no_extra "sleep 10" []).
  - reflexivity.
  - reflexivity.
  - discriminate.
  - reflexivity.
  - reflexivity.
Defined.

(** ** C10 *)

(** C10: the first call of the constructor builds the instance with the
    rule it was given; every later call, whatever rule it is given, returns
    that same instance and changes nothing: the instance keeps the rule of
    the first call. *)
Theorem C10_constructor_is_idempotent
  (st : interpreter) (first : option str) (later : list (option str)) :
  _instances st !! "Subprocess" = None ->
  exists obj st1,
    Subprocess_call first st = (obj, st1) /\
    objects st1 !! obj = Some {| self_log_mask_re := first |} /\
    Subprocess_calls later st1 = (replicate (List.length later) obj, st1).
Proof.
  intros Hfresh. unfold Subprocess_call at 1, SingletonMeta_call.
  rewrite Hfresh. simpl.
  eexists. eexists. split; [reflexivity|]. split.
  - simpl. apply list_lookup_middle. reflexivity.
  - apply Subprocess_calls_again. simpl. apply lookup_insert_eq.
Qed.

Lemma C10_constructor_is_idempotent_witness :
  exists obj st1,
    Subprocess_call (Some "--password=(\S+)")
      {| objects := []; _instances := ∅ |} = (obj, st1) /\
    objects st1 !! obj = Some {| self_log_mask_re := Some "--password=(\S+)" |} /\
    Subprocess_calls [None; Some "(a)|(b)"] st1
    = (replicate (List.length [None; Some "(a)|(b)"]) obj, st1).
Proof.
  apply (C10_constructor_is_idempotent {| objects := []; _instances := ∅ |}
           (Some "--password=(\S+)") [None; Some "(a)|(b)"]).
  reflexivity.
Defined.

(** * Further properties of the code *)

(** ** Masking *)


(** X2: whatever the spans of the groups are, also negative or out of
    order, [mask] gives, for the spans in the order met: the text from the
    end of the span before (from 0 at first) to the start of the span, then
    the marker; and at last the text from the end of the last span to the
    end, all as Python slices. *)
Theorem X2_mask_walks_the_spans
  (E : environment) (text rules : str) (matches : list (list (Z * Z))) :
  finditer E rules text = Some matches ->
  mask E text rules = Ok (redact text 0 (group_spans matches)).
Proof. apply mask_redact. Qed.

Lemma X2_mask_walks_the_spans_witness :
  mask Samples.E_quiet "xbyz" "(a)|(b)"
  = Ok (redact "xbyz" 0 (group_spans [[(-1, -1); (1, 2)]])).
Proof.
  apply (X2_mask_walks_the_spans Samples.E_quiet "xbyz" "(a)|(b)"
           [[(-1, -1); (1, 2)]]).
  reflexivity.
Defined.

(** X3: when the spans of the groups lie in the text one after the other,
    [mask] gives the text with each span replaced by the marker and
    everything else in place: putting the spans back gives the text. *)
Theorem X3_mask_on_ascending_spans
  (E : environment) (text rules : str) (matches : list (list (Z * Z))) :
  finditer E rules text = Some matches ->
  ascending 0 (group_spans matches) (Py.len text) ->
  mask E text rules = Ok (redact text 0 (group_spans matches)) /\
  restore text 0 (group_spans matches) = text.
Proof. apply mask_on_ascending_spans. Qed.

Lemma X3_mask_on_ascending_spans_witness :
  mask Samples.E_quiet "login --password=hunter2 --quiet" "--password=(\S+)"
  = Ok (redact "login --password=hunter2 --quiet" 0
          (group_spans [[(17, 24)]])) /\
  restore "login --password=hunter2 --quiet" 0 (group_spans [[(17, 24)]])
  = "login --password=hunter2 --quiet".
Proof.
  apply (X3_mask_on_ascending_spans Samples.E_quiet
           "login --password=hunter2 --quiet" "--password=(\S+)" [[(17, 24)]]).
  - reflexivity.
  - unfold group_spans, Py.len. simpl. lia.
Defined.

(** X4: a rule whose matches have no groups changes nothing. *)
Theorem X4_mask_without_groups
  (E : environment) (text rules : str) (matches : list (list (Z * Z))) :
  finditer E rules text = Some matches ->
  Forall (fun m => m = []) matches ->
  mask E text rules = Ok text.
Proof. apply mask_without_groups. Qed.

Lemma X4_mask_without_groups_witness :
  mask MoreSamples.E_no_groups "hello" "l" = Ok "hello".
Proof.
  apply (X4_mask_without_groups MoreSamples.E_no_groups "hello" "l" [[]; []]).
  - reflexivity.
  - repeat constructor.
Defined.





(** ** The executor *)

Lemma forallb_reads (f : event -> bool) E p src verbose :
  (forall s chunk, f (read_chunk s chunk verbose) = true) ->
  forallb f (reads_of E p src verbose) = true.
Proof.
  intros Hf. unfold reads_of. destruct src as [[s]|]; [|reflexivity].
  induction (output E p s) as [|chunk rest IH]; simpl; [reflexivity|].
  now rewrite Hf.
Qed.

Lemma forallb_phase (f : event -> bool) E p stdout stderr verbose :
  (forall s chunk, f (read_chunk s chunk verbose) = true) ->
  forallb f (phase_events E p stdout stderr verbose) = true.
Proof.
  intros Hf. unfold phase_events.
  now rewrite forallb_app, !forallb_reads.
Qed.

Ltac forallb_trace :=
  repeat first
    [ rewrite forallb_app
    | rewrite forallb_phase by reflexivity
    | progress simpl ].

Lemma filter_none_of (f g : event -> bool) (s : trace) :
  forallb f s = true -> (forall e, f e = true -> g e = false) ->
  List.filter g s = [].
Proof.
  intros Hs Hfg. induction s as [|e s IH]; [reflexivity|].
  simpl in Hs. apply andb_true_iff in Hs. destruct Hs as [He Hs].
  simpl. rewrite (Hfg e He). now apply IH.
Qed.

Lemma lock_depth_app (t s : trace) :
  lock_depth (t ++ s) = lock_depth t + lock_depth s.
Proof.
  induction t as [|e t IH]; [reflexivity|].
  destruct e; simpl; rewrite ?IH; lia.
Qed.

Lemma lock_depth_no_lock (s : trace) :
  List.filter is_lock s = [] -> lock_depth s = 0.
Proof.
  induction s as [|e s IH]; [reflexivity|].
  destruct e; simpl; try discriminate; exact IH.
Qed.

(** One run of [_exec_command], whatever the answers: it only adds to the
    trace, and what it adds are calls on the started process and on the
    readers, and log records. *)
Lemma exec_command_stage E self command interface stdout stderr timeout
      verbose log_mask_re kw t :
  exists o s,
    _exec_command E self command interface stdout stderr timeout verbose
      log_mask_re kw t = (o, t ++ s) /\
    forallb (fun e => is_wait_stage e || is_log e) s = true.
Proof.
  destruct (_mask_command E (self_log_mask_re self) command log_mask_re)
    as [cmd_for_log|e] eqn:Hmask.
  2:{ exists (Raise e), []. rewrite app_nil_r.
      split; [now apply exec_mask_error|reflexivity]. }
  destruct (wait_reply E) as [code|] eqn:Hw.
  { eexists. eexists. split; [eapply exec_exited; eassumption|].
    forallb_trace. reflexivity. }
  destruct timeout as [T|] eqn:HT.
  2:{ eexists. eexists. split; [eapply exec_blocked; eauto|].
      forallb_trace. reflexivity. }
  assert (Ht : Some T <> None) by discriminate.
  destruct (poll_reply E (npolls t)) as [code|] eqn:Hp.
  { eexists. eexists. split; [eapply exec_late_exit; eassumption|].
    forallb_trace. reflexivity. }
  destruct (kill_reply E) as [n|] eqn:Hk.
  2:{ eexists. eexists. split; [eapply exec_killed; eassumption|].
      forallb_trace. reflexivity. }
  destruct (poll_reply E (S (npolls t))) as [code|] eqn:Hp2.
  - eexists. eexists. split; [eapply exec_kill_failed_exited; eassumption|].
    forallb_trace. reflexivity.
  - eexists. eexists. split; [eapply exec_kill_failed; eassumption|].
    forallb_trace. reflexivity.
Qed.

(** One run of [execute_async], whatever the answers: it only adds to the
    trace; what it adds are log records, the launch, the feeding of the
    standard input and a kill; without a payload the standard input is not
    touched; and what it returns is the process it launched with the
    command as given, with its two pipes. *)
Lemma execute_async_stage E self command stdin open_stdout open_stderr verbose
      log_mask_re kw t :
  exists o s,
    execute_async E self command stdin open_stdout open_stderr verbose
      log_mask_re kw t = (o, t ++ s) /\
    forallb (fun e => is_log e || is_Popen e || is_stdin e || is_kill e) s
      = true /\
    (stdin = None -> List.filter is_stdin s = [] /\ List.filter is_kill s = []) /\
    (List.filter is_Popen s = [] \/
     List.filter is_Popen s
     = [Popen (started_with (launched command open_stdout open_stderr kw))]) /\
    match o with
    | Ret h =>
        let process := launched command open_stdout open_stderr kw in
        h = (process, tt, Popen_stderr process, Popen_stdout process)
    | Raise (ExecHelperTimeoutError _ _) => False
    | _ => True
    end.
Proof.
  destruct (_mask_command E (self_log_mask_re self) command log_mask_re)
    as [cmd_for_log|e] eqn:Hmask.
  2:{ exists (Raise e), []. rewrite app_nil_r. split.
      - unfold execute_async. now rewrite Hmask.
      - apply mask_command_error in Hmask. subst e.
        repeat split. now left. }
  unfold execute_async. rewrite Hmask.
  destruct stdin as [payload|].
  all: async_cases E.
  all: eexists; eexists; split; [reflexivity|].
  all: repeat split; try discriminate; simpl; try reflexivity.
  all: destruct verbose; simpl; now right.
Qed.

(** [execute], step by step: the launch under the lock, then the wait,
    then the summary record; the lock is released on the way out. *)
Lemma execute_run E (self : Subprocess) command verbose timeout kw t :
  execute E self command verbose timeout kw t =
  match execute_async E self command (kw_stdin kw)
          (default true (kw_open_stdout kw)) (default true (kw_open_stderr kw))
          verbose (kw_log_mask_re kw) (kw_extra kw) (t ++ [lock_acquire]) with
  | (Ret (iface, _, stderr, stdout), t1) =>
      match _exec_command E self command iface stdout stderr timeout verbose
              (kw_log_mask_re kw) (kw_extra kw) t1 with
      | (Ret r, t2) =>
          (Ret r,
           t2 ++ [log (if verbose then INFO else DEBUG)
                      (Command_exit_code (cmd r) (exit_code r));
                  lock_release])
      | (Raise e, t2) => (Raise e, t2 ++ [lock_release])
      | (Hang, t2) => (Hang, t2)
      end
  | (Raise e, t1) => (Raise e, t1 ++ [lock_release])
  | (Hang, t1) => (Hang, t1)
  end.
Proof.
  unfold execute, with_lock. simpl. unfold bind at 1.
  destruct (execute_async E self command (kw_stdin kw)
              (default true (kw_open_stdout kw))
              (default true (kw_open_stderr kw)) verbose (kw_log_mask_re kw)
              (kw_extra kw) (t ++ [lock_acquire]))
    as [[[[[iface u] stderr] stdout]|e|] t1]; try reflexivity.
  unfold bind at 1.
  destruct (_exec_command E self command iface stdout stderr timeout verbose
              (kw_log_mask_re kw) (kw_extra kw) t1) as [[r|e|] t2];
    try reflexivity.
  unfold bind, emit, ret. now rewrite <- app_assoc.
Qed.

(** [execute] between the acquisition and the release of the lock. *)
Lemma execute_brackets
  (E : environment) (self : Subprocess) (command : str) (verbose : bool)
  (timeout : option Z) (kw : kwargs) (t : trace) :
  exists o s,
    execute E self command verbose timeout kw t = (o, t ++ lock_acquire :: s) /\
    match o with
    | Hang =>
        List.filter is_lock s = [] /\
        lock_depth (t ++ lock_acquire :: s) = lock_depth t + 1
    | _ =>
        (exists s', s = s' ++ [lock_release] /\ List.filter is_lock s' = []) /\
        lock_depth (t ++ lock_acquire :: s) = lock_depth t
    end.
Proof.
  rewrite execute_run.
  destruct (execute_async_stage E self command (kw_stdin kw)
              (default true (kw_open_stdout kw))
              (default true (kw_open_stderr kw)) verbose (kw_log_mask_re kw)
              (kw_extra kw) (t ++ [lock_acquire]))
    as (o1 & s1 & Hrun1 & Hs1 & _).
  rewrite Hrun1.
  assert (Hl1 : List.filter is_lock s1 = []).
  { apply (filter_none_of _ _ _ Hs1). now intros []. }
  assert (Hdepth : forall s, List.filter is_lock s = [] ->
            lock_depth (t ++ lock_acquire :: s ++ [lock_release]) = lock_depth t).
  { intros s Hs. rewrite lock_depth_app. simpl.
    rewrite lock_depth_app, (lock_depth_no_lock s Hs). simpl. lia. }
  assert (Hheld : forall s, List.filter is_lock s = [] ->
            lock_depth (t ++ lock_acquire :: s) = lock_depth t + 1).
  { intros s Hs. rewrite lock_depth_app. simpl.
    rewrite (lock_depth_no_lock s Hs). lia. }
  destruct o1 as [[[[iface u] stderr] stdout]|e|].
  2:{ exists (Raise e), (s1 ++ [lock_release]). split.
      - now rewrite <- !app_assoc.
      - split; [eauto|]. now apply Hdepth. }
  2:{ exists Hang, s1. split; [now rewrite <- app_assoc|].
      split; [assumption|]. now apply Hheld. }
  destruct (exec_command_stage E self command iface stdout stderr timeout
              verbose (kw_log_mask_re kw) (kw_extra kw)
              ((t ++ [lock_acquire]) ++ s1))
    as (o2 & s2 & Hrun2 & Hs2).
  rewrite Hrun2.
  assert (Hl2 : List.filter is_lock s2 = []).
  { apply (filter_none_of _ _ _ Hs2). now intros []. }
  destruct o2 as [r|e|].
  - eexists. exists ((s1 ++ s2 ++ [log (if verbose then INFO else DEBUG)
                                      (Command_exit_code (cmd r) (exit_code r))])
                       ++ [lock_release]).
    split.
    + rewrite <- !app_assoc. simpl. reflexivity.
    + assert (Hl : List.filter is_lock
                     (s1 ++ s2 ++ [log (if verbose then INFO else DEBUG)
                                       (Command_exit_code (cmd r) (exit_code r))])
                   = []).
      { rewrite !List.filter_app, Hl1, Hl2. reflexivity. }
      split; [eauto|]. now apply Hdepth.
  - exists (Raise e), ((s1 ++ s2) ++ [lock_release]). split.
    + now rewrite <- !app_assoc.
    + assert (Hl : List.filter is_lock (s1 ++ s2) = [])
        by (now rewrite List.filter_app, Hl1, Hl2).
      split; [eauto|]. now apply Hdepth.
  - exists Hang, (s1 ++ s2). split.
    + now rewrite <- !app_assoc.
    + assert (Hl : List.filter is_lock (s1 ++ s2) = [])
        by (now rewrite List.filter_app, Hl1, Hl2).
      split; [assumption|]. now apply Hheld.
Qed.

(** X6: [execute] holds the lock from its first step to its last: the
    first event is the acquisition, the last one the release, on every way
    out that comes back, and nothing in between touches the lock. While
    [execute] is blocked, the lock stays held. *)
Theorem X6_execute_holds_the_lock
  (E : environment) (self : Subprocess) (command : str) (verbose : bool)
  (timeout : option Z) (kw : kwargs) (t : trace) :
  exists o s,
    execute E self command verbose timeout kw t = (o, t ++ lock_acquire :: s) /\
    match o with
    | Hang =>
        List.filter is_lock s = [] /\
        lock_depth (t ++ lock_acquire :: s) = lock_depth t + 1
    | _ =>
        (exists s', s = s' ++ [lock_release] /\ List.filter is_lock s' = []) /\
        lock_depth (t ++ lock_acquire :: s) = lock_depth t
    end.
Proof. apply execute_brackets. Qed.


(** X7: when the launch itself fails, [execute] raises the error of
    [Popen] at once: nothing is written to the process, waited for or
    killed, no summary is logged, and the lock is released. *)
Theorem X7_launch_failure_propagates
  (E : environment) (self : Subprocess) (command : str) (verbose : bool)
  (timeout : option Z) (kw : kwargs) (cmd_for_log : str) (n : Z) (t : trace) :
  _mask_command E (self_log_mask_re self) command (kw_log_mask_re kw)
    = Ok cmd_for_log ->
  Popen_reply E = Some n ->
  execute E self command verbose timeout kw t =
  (Raise (OSError n),
   t ++ [lock_acquire;
         log (if verbose then INFO else DEBUG) (CMD_EXEC cmd_for_log);
         Popen (started_with
                  (launched command (default true (kw_open_stdout kw))
                     (default true (kw_open_stderr kw)) (kw_extra kw)));
         lock_release]).
Proof.
  intros Hmask Hspawn. rewrite execute_run.
  unfold execute_async. rewrite Hmask.
  destruct (kw_stdin kw); async_cases E; reflexivity.
Qed.

Lemma X7_launch_failure_propagates_witness :
  execute MoreSamples.E_no_launch Samples.plain "ls" false (Some 5)
    Samples.no_kwargs [] =
  (Raise (OSError 2),
   [] ++ [lock_acquire;
          log (if false then INFO else DEBUG) (CMD_EXEC "ls");
          Popen (started_with
                   (launched "ls"
                      (default true (kw_open_stdout Samples.no_kwargs))
                      (default true (kw_open_stderr Samples.no_kwargs))
                      (kw_extra Samples.no_kwargs)));
          lock_release]).
Proof.
  apply (X7_launch_failure_propagates MoreSamples.E_no_launch Samples.plain
           "ls" false (Some 5) Samples.no_kwargs "ls" 2 []); reflexivity.
Defined.



(** X9: without a payload, the standard input of the process is a pipe
    that [execute] never writes to and never closes: in the whole run there
    is no write and no close, and the one launch there may be asks for a
    pipe. *)
Theorem X9_stdin_is_left_open
  (E : environment) (self : Subprocess) (command : str) (verbose : bool)
  (timeout : option Z) (kw : kwargs) (t : trace) :
  kw_stdin kw = None ->
  exists o s,
    execute E self command verbose timeout kw t = (o, t ++ s) /\
    List.filter is_stdin s = [] /\
    exists launch,
      popen_stdin (started_with launch) = PIPE /\
      (List.filter is_Popen s = [] \/
       List.filter is_Popen s = [Popen (started_with launch)]).
Proof.
  intros Hstdin. rewrite execute_run.
  destruct (execute_async_stage E self command (kw_stdin kw)
              (default true (kw_open_stdout kw))
              (default true (kw_open_stderr kw)) verbose (kw_log_mask_re kw)
              (kw_extra kw) (t ++ [lock_acquire]))
    as (o1 & s1 & Hrun1 & Hs1 & Hnone & Hlaunch & _).
  rewrite Hrun1. destruct (Hnone Hstdin) as [Hin1 _].
  set (launch := launched command (default true (kw_open_stdout kw))
                   (default true (kw_open_stderr kw)) (kw_extra kw)) in *.
  assert (Hstage : forall s2,
            forallb (fun e => is_wait_stage e || is_log e) s2 = true ->
            forall tail, List.filter is_stdin tail = [] ->
                         List.filter is_Popen tail = [] ->
            List.filter is_stdin (lock_acquire :: s1 ++ s2 ++ tail) = [] /\
            exists launch0,
              popen_stdin (started_with launch0) = PIPE /\
              (List.filter is_Popen (lock_acquire :: s1 ++ s2 ++ tail) = [] \/
               List.filter is_Popen (lock_acquire :: s1 ++ s2 ++ tail)
               = [Popen (started_with launch0)])).
  { intros s2 Hs2 tail Htail1 Htail2. simpl. rewrite !List.filter_app.
    rewrite Hin1, Htail1, Htail2.
    rewrite !(filter_none_of _ _ _ Hs2) by (now intros []).
    split; [reflexivity|]. exists launch. split; [reflexivity|].
    rewrite !app_nil_r. exact Hlaunch. }
  destruct o1 as [[[[iface u] stderr] stdout]|e|].
  2:{ exists (Raise e), (lock_acquire :: s1 ++ [] ++ [lock_release]). split.
      - rewrite <- !app_assoc. reflexivity.
      - now apply Hstage. }
  2:{ exists Hang, (lock_acquire :: s1 ++ [] ++ []). split.
      - rewrite <- !app_assoc, !app_nil_r. reflexivity.
      - now apply Hstage. }
  destruct (exec_command_stage E self command iface stdout stderr timeout
              verbose (kw_log_mask_re kw) (kw_extra kw)
              ((t ++ [lock_acquire]) ++ s1))
    as (o2 & s2 & Hrun2 & Hs2).
  rewrite Hrun2.
  destruct o2 as [r|e|].
  - eexists. exists (lock_acquire :: s1 ++ s2 ++
                       [log (if verbose then INFO else DEBUG)
                            (Command_exit_code (cmd r) (exit_code r));
                        lock_release]).
    split.
    + rewrite <- !app_assoc. reflexivity.
    + now apply Hstage.
  - exists (Raise e), (lock_acquire :: s1 ++ s2 ++ [lock_release]). split.
    + rewrite <- !app_assoc. reflexivity.
    + now apply Hstage.
  - exists Hang, (lock_acquire :: s1 ++ s2 ++ []). split.
    + rewrite <- !app_assoc, !app_nil_r. reflexivity.
    + now apply Hstage.
Qed.

Lemma X9_stdin_is_left_open_witness :
  exists o s,
    execute Samples.E_sleep Samples.plain "cat" false (Some 1)
      Samples.no_kwargs [] = (o, [] ++ s) /\
    List.filter is_stdin s = [] /\
    exists launch,
      popen_stdin (started_with launch) = PIPE /\
      (List.filter is_Popen s = [] \/
       List.filter is_Popen s = [Popen (started_with launch)]).
Proof.
  apply (X9_stdin_is_left_open Samples.E_sleep Samples.plain "cat" false
           (Some 1) Samples.no_kwargs []).
  reflexivity.
Defined.

(** X10: the warning written when the kill fails on a process that has
    exited shows the command as it was given, not the masked one: what a
    masking rule hides in the result and in the other records is in this
    record. *)
Theorem X10_warning_shows_the_command_unmasked
  (E : environment) (self : Subprocess) (command : str)
  (interface : Popen_obj) (stdout stderr : option IO) (timeout : option Z)
  (verbose : bool) (log_mask_re : option str) (kw : extra)
  (cmd_for_log : str) (t : trace) (n code : Z) :
  _mask_command E (self_log_mask_re self) command log_mask_re = Ok cmd_for_log ->
  wait_reply E = None ->
  timeout <> None ->
  poll_reply E (npolls t) = None ->
  kill_reply E = Some n ->
  poll_reply E (S (npolls t)) = Some code ->
  exists r s,
    _exec_command E self command interface stdout stderr timeout verbose
      log_mask_re kw t = (Ret r, t ++ s) /\
    cmd r = cmd_for_log /\
    List.filter is_log s = [log WARNING (completed_just_after_timeout command)].
Proof.
  intros Hmask Hw Ht Hp Hk Hp2.
  eexists. eexists. split.
  - eapply exec_kill_failed_exited; eassumption.
  - split; [reflexivity|]. filter_trace. reflexivity.
Qed.

Lemma X10_warning_shows_the_command_unmasked_witness :
  exists r s,
    _exec_command Samples.E_kill_race Samples.plain
      "login --password=hunter2 --quiet"
      (Samples.child "login --password=hunter2 --quiet")
      (Some (pipe STDOUT)) (Some (pipe STDERR)) (Some 1) false
      (Some "--password=(\S+)") Samples.no_extra [] = (Ret r, [] ++ s) /\
    cmd r = "login --password=<*masked*> --quiet" /\
    List.filter is_log s =
      [log WARNING
         (completed_just_after_timeout "login --password=hunter2 --quiet")].
Proof.
  apply (X10_warning_shows_the_command_unmasked Samples.E_kill_race
           Samples.plain "login --password=hunter2 --quiet"
           (Samples.child "login --password=hunter2 --quiet")
           (Some (pipe STDOUT)) (Some (pipe STDERR)) (Some 1) false
           (Some "--password=(\S+)") Samples.no_extra
           "login --password=<*masked*> --quiet" [] 3 0).
  - reflexivity.
  - reflexivity.
  - discriminate.
  - reflexivity.
  - reflexivity.
  - reflexivity.
Defined.

(** X11: in one run of [_exec_command] the process is killed at most once
    and asked with [poll] at most twice; when [wait] gives an exit code it
    is neither killed nor asked; and whenever a result is returned the
    readers have not been cancelled and the five-second join has not been
    run. *)
Theorem X11_kill_and_poll_are_bounded
  (E : environment) (self : Subprocess) (command : str)
  (interface : Popen_obj) (stdout stderr : option IO) (timeout : option Z)
  (verbose : bool) (log_mask_re : option str) (kw : extra) (t : trace) :
  exists o s,
    _exec_command E self command interface stdout stderr timeout verbose
      log_mask_re kw t = (o, t ++ s) /\
    (List.length (List.filter is_kill s) <= 1)%nat /\
    (List.length (List.filter is_poll s) <= 2)%nat /\
    (wait_reply E <> None ->
     List.filter is_kill s = [] /\ List.filter is_poll s = []) /\
    match o with
    | Ret _ =>
        List.filter is_cancel s = [] /\
        List.filter is_long_join s = []
    | _ => True
    end.
Proof.
  destruct (_mask_command E (self_log_mask_re self) command log_mask_re)
    as [cmd_for_log|e] eqn:Hmask.
  2:{ exists (Raise e), []. rewrite app_nil_r.
      split; [now apply exec_mask_error|]. simpl. repeat split; lia. }
  destruct (wait_reply E) as [code|] eqn:Hw.
  { eexists. eexists. split; [eapply exec_exited; eassumption|].
    repeat split; filter_trace; try lia; try reflexivity. }
  destruct timeout as [T|] eqn:HT.
  2:{ eexists. eexists. split; [eapply exec_blocked; eauto|].
      repeat split; filter_trace; try lia; try congruence. }
  assert (Ht : Some T <> None) by discriminate.
  destruct (poll_reply E (npolls t)) as [code|] eqn:Hp.
  { eexists. eexists. split; [eapply exec_late_exit; eassumption|].
    repeat split; filter_trace; try lia; try congruence. }
  destruct (kill_reply E) as [n|] eqn:Hk.
  2:{ eexists. eexists. split; [eapply exec_killed; eassumption|].
      repeat split; filter_trace; try lia; try congruence. }
  destruct (poll_reply E (S (npolls t))) as [code|] eqn:Hp2.
  - eexists. eexists. split; [eapply exec_kill_failed_exited; eassumption|].
    repeat split; filter_trace; try lia; try congruence.

  - eexists. eexists. split; [eapply exec_kill_failed; eassumption|].
    repeat split; filter_trace; try lia; try congruence.
Qed.




(** ** The metaclass *)

(** X13: a constructor call keeps the registry sound and touches nothing
    else: every registered instance still names an object, the objects
    there were are still there unchanged, the entries of other classes are
    as before, and afterwards [Subprocess] is registered with the object
    the call returned. *)
Theorem X13_constructor_keeps_the_registry
  (st : interpreter) (rule : option str) :
  registry_ok st ->
  let '(obj, st') := Subprocess_call rule st in
  registry_ok st' /\
  objects st `prefix_of` objects st' /\
  (forall cls, cls <> "Subprocess" ->
               _instances st' !! cls = _instances st !! cls) /\
  _instances st' !! "Subprocess" = Some obj /\
  is_Some (objects st' !! obj).
Proof.
  intros Hok. unfold Subprocess_call, SingletonMeta_call.
  destruct (_instances st !! "Subprocess") as [obj|] eqn:Hreg.
  - repeat split; eauto.
  - simpl. repeat split.
    + intros cls obj. simpl. rewrite lookup_insert.
      destruct (decide ("Subprocess" = cls)) as [Hcls|Hne].
      * intros Heq. inversion Heq; subst.
        rewrite list_lookup_middle by reflexivity. eauto.
      * intros Hcls. apply Hok in Hcls. destruct Hcls as [o Ho].
        exists o. now apply lookup_app_l_Some.
    + now apply prefix_app_r.
    + intros cls Hne. simpl. now rewrite lookup_insert_ne.
    + simpl. now rewrite lookup_insert_eq.
    + simpl. rewrite list_lookup_middle by reflexivity. eauto.
Qed.

Lemma X13_constructor_keeps_the_registry_witness :
  let st := {| objects := [{| self_log_mask_re := None |}];
               _instances := {["Other" := 0%nat]} |} in
  let '(obj, st') := Subprocess_call (Some "(a)|(b)") st in
  registry_ok st' /\
  objects st `prefix_of` objects st' /\
  (forall cls, cls <> "Subprocess" ->
               _instances st' !! cls = _instances st !! cls) /\
  _instances st' !! "Subprocess" = Some obj /\
  is_Some (objects st' !! obj).
Proof.
  apply (X13_constructor_keeps_the_registry
           {| objects := [{| self_log_mask_re := None |}];
              _instances := {["Other" := 0%nat]} |} (Some "(a)|(b)")).
  intros cls obj. simpl. rewrite lookup_singleton.
  destruct (decide ("Other" = cls)); [|discriminate].
  intros Heq. inversion Heq; subst. simpl. eauto.
Defined.

(** ** The context manager and the two checks *)

(** X14: [execute] inside [with helper:] takes the lock a second time and
    gives it back before the [with] statement does: two acquisitions at the
    start, two releases at the end on every way out that comes back, and
    nothing in between touches the lock. *)
Theorem X14_execute_inside_with
  (E : environment) (self : Subprocess) (command : str) (verbose : bool)
  (timeout : option Z) (kw : kwargs) (t : trace) :
  exists o s,
    with_helper self (fun helper => execute E helper command verbose timeout kw) t
    = (o, t ++ lock_acquire :: lock_acquire :: s) /\
    match o with
    | Hang => List.filter is_lock s = []
    | _ =>
        exists s', s = s' ++ [lock_release; lock_release] /\
                   List.filter is_lock s' = []
    end.
Proof.
  unfold with_helper, __enter__, __exit__, bind, emit, ret. simpl.
  destruct (execute_brackets E self command verbose timeout kw
              (t ++ [lock_acquire])) as (o & s & Hrun & Ho).
  rewrite Hrun.
  destruct o as [r|e|].
  - destruct Ho as [(s' & -> & Hs') _].
    exists (Ret r), (s' ++ [lock_release; lock_release]). split.
    + rewrite <- !app_assoc. simpl. rewrite <- !app_assoc. reflexivity.
    + eauto.
  - destruct Ho as [(s' & -> & Hs') _].
    exists (Raise e), (s' ++ [lock_release; lock_release]). split.
    + rewrite <- !app_assoc. simpl. rewrite <- !app_assoc. reflexivity.
    + eauto.
  - destruct Ho as [Hs _]. exists Hang, s. split.
    + rewrite <- !app_assoc. reflexivity.
    + exact Hs.
Qed.

Section CheckRuns.

Variable E : environment.
Variable conv : option (list Z) -> list Z.

(** [check_call], in terms of the run of [execute] it makes. *)
Lemma check_call_run (self : Subprocess) command verbose timeout error_info
      expected raise_on_err kw (t : trace) (errs : list error_message) :
  check_call E conv self command verbose timeout error_info expected
    raise_on_err kw (t, errs) =
  match execute E self command verbose timeout kw t with
  | (Ret r, t') =>
      if exit_code_in (exit_code r) (conv expected) then
        (Returns r, (t', errs))
      else
        (if raise_on_err
         then Raises (CalledProcessError r (Some (conv expected)))
         else Returns r,
         (t', errs ++ [returned_exit_code (append_of error_info) (cmd r)
                         (exit_code r) (conv expected)]))
  | (Raise e, t') => (Raises (passed_on e), (t', errs))
  | (Hang, t') => (Blocks, (t', errs))
  end.
Proof.
  unfold check_call, cbind at 1, of_M. simpl.
  destruct (execute E self command verbose timeout kw t) as [[r|e|] t'];
    try reflexivity.
  destruct (exit_code_in (exit_code r) (conv expected)); simpl;
    [reflexivity|].
  destruct raise_on_err; reflexivity.
Qed.

(** [check_stderr], in terms of the run of [execute] it makes. *)
Lemma check_stderr_run (self : Subprocess) command verbose timeout error_info
      raise_on_err kw (t : trace) (errs : list error_message) :
  check_stderr E conv self command verbose timeout error_info raise_on_err
    kw (t, errs) =
  match check_call E conv self command verbose timeout error_info
          (ck_expected kw) raise_on_err (ck_rest kw) (t, errs) with
  | (Returns r, (t', errs')) =>
      match stderr r with
      | [] => (Returns r, (t', errs'))
      | _ :: _ =>
          (if raise_on_err
           then Raises (CalledProcessError r (ck_expected kw))
           else Returns r,
           (t', errs' ++ [STDERR_while_not_expected (append_of error_info)
                            (cmd r) (exit_code r)]))
      end
  | other => other
  end.
Proof.
  unfold check_stderr, cbind at 1.
  destruct (check_call E conv self command verbose timeout error_info
              (ck_expected kw) raise_on_err (ck_rest kw) (t, errs))
    as [[r|e|] [t' errs']]; try reflexivity.
  destruct (stderr r) as [|b rest]; simpl; [reflexivity|].
  destruct raise_on_err; reflexivity.
Qed.

End CheckRuns.

(** X15: with [raise_on_err] set, [check_call] returns a result exactly
    when [execute] returned it and its exit code is among the expected
    ones; then it is the result of [execute], nothing is written to the
    error log, and the process was run once, by that [execute]. *)
Theorem X15_check_call_returns_only_expected
  (E : environment) (conv : option (list Z) -> list Z) (self : Subprocess)
  (command : str) (verbose : bool) (timeout : option Z)
  (error_info : option str) (expected : option (list Z)) (kw : kwargs)
  (t t' : trace) (errs errs' : list error_message) (r : ExecResult) :
  check_call E conv self command verbose timeout error_info expected true kw
    (t, errs) = (Returns r, (t', errs'))
  <->
  execute E self command verbose timeout kw t = (Ret r, t') /\
  exit_code_in (exit_code r) (conv expected) = true /\
  errs' = errs.
Proof.
  rewrite check_call_run.
  destruct (execute E self command verbose timeout kw t) as [[r0|e|] t0].
  - destruct (exit_code_in (exit_code r0) (conv expected)) eqn:Hin.
    + split.
      * intros Heq. inversion Heq; subst. auto.
      * intros (Heq & _ & ->). inversion Heq; subst. reflexivity.
    + split.
      * discriminate.
      * intros (Heq & Hin' & _). inversion Heq; subst. congruence.
  - split; [discriminate|]. intros (Heq & _). discriminate.
  - split; [discriminate|]. intros (Heq & _). discriminate.
Qed.

(** X16: [check_call] raises [CalledProcessError] exactly when
    [raise_on_err] is set, [execute] has returned a result and the exit
    code of that result is not among the expected ones; the error carries
    that result and the expected codes, and one record has been written to
    the error log. An exception of [execute], the timeout error among
    them, is never turned into [CalledProcessError]. *)
Theorem X16_called_process_error_of_check_call
  (E : environment) (conv : option (list Z) -> list Z) (self : Subprocess)
  (command : str) (verbose : bool) (timeout : option Z)
  (error_info : option str) (expected : option (list Z))
  (raise_on_err : bool) (kw : kwargs)
  (t t' : trace) (errs errs' : list error_message) (r : ExecResult)
  (carried_expected : option (list Z)) :
  check_call E conv self command verbose timeout error_info expected
    raise_on_err kw (t, errs)
  = (Raises (CalledProcessError r carried_expected), (t', errs'))
  <->
  raise_on_err = true /\
  execute E self command verbose timeout kw t = (Ret r, t') /\
  exit_code_in (exit_code r) (conv expected) = false /\
  carried_expected = Some (conv expected) /\
  errs' = errs ++ [returned_exit_code (append_of error_info) (cmd r)
                     (exit_code r) (conv expected)].
Proof.
  rewrite check_call_run.
  destruct (execute E self command verbose timeout kw t) as [[r0|e|] t0].
  - destruct (exit_code_in (exit_code r0) (conv expected)) eqn:Hin.
    + split; [discriminate|].
      intros (_ & Heq & Hin' & _). inversion Heq; subst. congruence.
    + destruct raise_on_err.
      * split.
        -- intros Heq. inversion Heq; subst. auto.
        -- intros (_ & Heq & _ & -> & ->). inversion Heq; subst. reflexivity.
      * split; [discriminate|]. intros (Hr & _). discriminate.
  - split; [discriminate|]. intros (_ & Heq & _). discriminate.
  - split; [discriminate|]. intros (_ & Heq & _). discriminate.
Qed.

(** X17: with [raise_on_err] set, [check_stderr] returns a result exactly
    when [execute] returned it, its exit code is among the expected ones
    and nothing was read from the standard error; nothing is written to
    the error log then. *)
Theorem X17_check_stderr_returns_only_clean
  (E : environment) (conv : option (list Z) -> list Z) (self : Subprocess)
  (command : str) (verbose : bool) (timeout : option Z)
  (error_info : option str) (kw : check_kwargs)
  (t t' : trace) (errs errs' : list error_message) (r : ExecResult) :
  check_stderr E conv self command verbose timeout error_info true kw
    (t, errs) = (Returns r, (t', errs'))
  <->
  execute E self command verbose timeout (ck_rest kw) t = (Ret r, t') /\
  exit_code_in (exit_code r) (conv (ck_expected kw)) = true /\
  stderr r = [] /\
  errs' = errs.
Proof.
  rewrite check_stderr_run, check_call_run.
  destruct (execute E self command verbose timeout (ck_rest kw) t)
    as [[r0|e|] t0].
  - destruct (exit_code_in (exit_code r0) (conv (ck_expected kw))) eqn:Hin.
    + destruct (stderr r0) as [|b rest] eqn:Herr.
      * split.
        -- intros Heq. inversion Heq; subst. auto.
        -- intros (Heq & _ & _ & ->). inversion Heq; subst. reflexivity.
      * split; [discriminate|].
        intros (Heq & _ & Herr' & _). inversion Heq; subst. congruence.
    + split; [discriminate|].
      intros (Heq & Hin' & _). inversion Heq; subst. congruence.
  - split; [discriminate|]. intros (Heq & _). discriminate.
  - split; [discriminate|]. intros (Heq & _). discriminate.
Qed.

(** X18: with [raise_on_err] not set, [check_stderr] returns whatever
    result [execute] returned and raises no [CalledProcessError]; it
    writes one record for an exit code that is not expected and one more
    for a standard error that is not empty, in this order. *)
Theorem X18_check_stderr_only_logs
  (E : environment) (conv : option (list Z) -> list Z) (self : Subprocess)
  (command : str) (verbose : bool) (timeout : option Z)
  (error_info : option str) (kw : check_kwargs)
  (t t' : trace) (errs : list error_message) (r : ExecResult) :
  execute E self command verbose timeout (ck_rest kw) t = (Ret r, t') ->
  check_stderr E conv self command verbose timeout error_info false kw
    (t, errs) =
  (Returns r,
   (t', errs
        ++ (if exit_code_in (exit_code r) (conv (ck_expected kw)) then []
            else [returned_exit_code (append_of error_info) (cmd r)
                    (exit_code r) (conv (ck_expected kw))])
        ++ (match stderr r with
            | [] => []
            | _ :: _ => [STDERR_while_not_expected (append_of error_info)
                           (cmd r) (exit_code r)]
            end))).
Proof.
  intros Hrun. rewrite check_stderr_run, check_call_run, Hrun.
  destruct (exit_code_in (exit_code r) (conv (ck_expected kw)));
    destruct (stderr r) as [|b rest]; simpl;
    rewrite ?app_nil_r, <- ?app_assoc; reflexivity.
Qed.

Lemma X18_check_stderr_only_logs_witness :
  let r := {| cmd := "make"; exit_code := Some 1; stdout := [];
              stderr := [Byte.x21] |} in
  check_stderr MoreSamples.E_fails_noisy MoreSamples.zero_by_default
    Samples.plain "make" false (Some 5) None false
    (MoreSamples.only_expected None) ([], []) =
  (Returns r,
   ((execute MoreSamples.E_fails_noisy Samples.plain "make" false (Some 5)
       Samples.no_kwargs []).2,
    []
      ++ (if exit_code_in (exit_code r)
               (MoreSamples.zero_by_default
                  (ck_expected (MoreSamples.only_expected None)))
          then []
          else [returned_exit_code (append_of None) (cmd r) (exit_code r)
                  (MoreSamples.zero_by_default
                     (ck_expected (MoreSamples.only_expected None)))])
      ++ (match stderr r with
          | [] => []
          | _ :: _ => [STDERR_while_not_expected (append_of None) (cmd r)
                         (exit_code r)]
          end))).
Proof.
  apply (X18_check_stderr_only_logs MoreSamples.E_fails_noisy
           MoreSamples.zero_by_default Samples.plain "make" false (Some 5)
           None (MoreSamples.only_expected None) []).
  reflexivity.
Defined.



Lemma X15_check_call_returns_only_expected_witness :
  check_call Samples.E_quiet MoreSamples.zero_by_default Samples.plain "true"
    false (Some 5) None None true Samples.no_kwargs ([], [])
  = (Returns {| cmd := "true"; exit_code := Some 0; stdout := [];
                stderr := [] |},
     ((execute Samples.E_quiet Samples.plain "true" false (Some 5)
         Samples.no_kwargs []).2, [])).
Proof.
  apply (X15_check_call_returns_only_expected Samples.E_quiet
           MoreSamples.zero_by_default Samples.plain "true" false (Some 5)
           None None Samples.no_kwargs []).
  repeat split.
Defined.

Lemma X16_called_process_error_of_check_call_witness :
  let r := {| cmd := "false"; exit_code := Some 1; stdout := [];
              stderr := [] |} in
  check_call MoreSamples.E_fails MoreSamples.zero_by_default Samples.plain
    "false" false (Some 5) (Some "step 1") None true Samples.no_kwargs ([], [])
  = (Raises (CalledProcessError r (Some [0])),
     ((execute MoreSamples.E_fails Samples.plain "false" false (Some 5)
         Samples.no_kwargs []).2,
      [returned_exit_code (append_of (Some "step 1")) "false" (Some 1) [0]])).
Proof.
  apply (X16_called_process_error_of_check_call MoreSamples.E_fails
           MoreSamples.zero_by_default Samples.plain "false" false (Some 5)
           (Some "step 1") None true Samples.no_kwargs []).
  repeat split.
Defined.

Lemma X17_check_stderr_returns_only_clean_witness :
  check_stderr Samples.E_quiet MoreSamples.zero_by_default Samples.plain
    "true" false (Some 5) None true (MoreSamples.only_expected (Some [0; 2]))
    ([], [])
  = (Returns {| cmd := "true"; exit_code := Some 0; stdout := [];
                stderr := [] |},
     ((execute Samples.E_quiet Samples.plain "true" false (Some 5)
         Samples.no_kwargs []).2, [])).
Proof.
  apply (X17_check_stderr_returns_only_clean Samples.E_quiet
           MoreSamples.zero_by_default Samples.plain "true" false (Some 5)
           None (MoreSamples.only_expected (Some [0; 2])) []).
  repeat split.
Defined.

(** X20: with a payload, [execute_async] writes it once, as bytes, and
    then closes the standard input once, also after a write that failed
    with an error of the broken-pipe family; after a write that failed
    with another error it does not close. The process is killed, once,
    exactly when the write or the close fails with an error outside that
    family. *)
Theorem X20_feeding_the_standard_input
  (E : environment) (self : Subprocess) (command : str) (payload : stdin_data)
  (open_stdout open_stderr verbose : bool) (log_mask_re : option str)
  (kw : extra) (cmd_for_log : str) (t : trace) :
  _mask_command E (self_log_mask_re self) command log_mask_re = Ok cmd_for_log ->
  Popen_reply E = None ->
  exists o s,
    execute_async E self command (Some payload) open_stdout open_stderr
      verbose log_mask_re kw t = (o, t ++ s) /\
    List.filter is_stdin s =
      (if tolerated (write_reply E)
       then [stdin_write (to_bytes payload); stdin_close]
       else [stdin_write (to_bytes payload)]) /\
    List.filter is_kill s =
      (if tolerated (write_reply E) && tolerated (close_reply E)
       then [] else [kill]).
Proof.
  intros Hmask Hspawn. unfold execute_async. rewrite Hmask.
  unfold tolerated, broken_pipe.
  async_cases E.
  all: try (simpl in *; congruence).
  all: eexists; eexists; split; [reflexivity|].
  all: destruct verbose; simpl; split; reflexivity.
Qed.

Lemma X20_feeding_the_standard_input_witness :
  exists o s,
    execute_async Samples.E_broken_pipe Samples.plain "cat"
      (Some (stdin_str "hello")) true true false None Samples.no_extra []
    = (o, [] ++ s) /\
    List.filter is_stdin s =
      (if tolerated (write_reply Samples.E_broken_pipe)
       then [stdin_write (to_bytes (stdin_str "hello")); stdin_close]
       else [stdin_write (to_bytes (stdin_str "hello"))]) /\
    List.filter is_kill s =
      (if tolerated (write_reply Samples.E_broken_pipe)
          && tolerated (close_reply Samples.E_broken_pipe)
       then [] else [kill]).
Proof.
  apply (X20_feeding_the_standard_input Samples.E_broken_pipe Samples.plain
           "cat" (stdin_str "hello") true true false None Samples.no_extra
           "cat" []); reflexivity.
Defined.
